(** * Page selection and page transformations of the PDF bot

    A shallow embedding of [utils/pdf_tools.py] (the page selector and
    the merge, split, delete, rotate and reorder operations of
    [PDFProcessor]), of the input handlers of [handlers/delete_pages.py],
    [handlers/merge.py] and [handlers/reorder.py], of the input checks of
    [handlers/split.py] and [handlers/rotate.py], and of the naming and
    removal of temporary files in [utils/cleanup.py], with the properties
    the specification states about them and further properties of the
    code.

    Conventions of the embedding.
    - A Python [int] is a [Z]; a Python [str] is a [string].  Only ASCII
      text is in the domain of the model: characters above 127 are kept
      as they are, and are neither white space nor digits.  The limit on
      the number of digits that recent interpreters put on [int(s)] is
      not modelled.
    - An exception raised inside a [try] block is the [None] of the option
      monad; the [except] clause is the match on the result.
    - The files on disk are a finite map from paths to documents, threaded
      through every operation that reads or writes a file; a path that is
      missing from the map stands for a file that cannot be opened or is
      not a PDF.  Writing a file always succeeds.
    - A handler returns the session it leaves and the messages it sends;
      the keyboards under the messages and the removal of temporary files
      are left out. *)

From Stdlib Require Import ZArith Ascii String.
From stdpp Require Import base option list list_numbers numbers gmap
  sorting strings pretty.

Local Open Scope Z_scope.

(** ** Python built-ins on strings and integers *)

Module Py.

(** [str.isspace] on one ASCII character: TAB, LF, VT, FF, CR, the four
    separators FS, GS, RS, US, and the space. *)
Definition isspace (c : ascii) : bool :=
  match c with
  | "009" | "010" | "011" | "012" | "013"
  | "028" | "029" | "030" | "031" | " " => true
  | _ => false
  end%char.

(** One character of [str.lower]. *)
Definition lower_char (c : ascii) : ascii :=
  let n := N_of_ascii c in
  if ((65 <=? n) && (n <=? 90))%N then ascii_of_N (n + 32) else c.

(** [s.lower()] *)
Fixpoint lower (s : string) : string :=
  match s with
  | EmptyString => EmptyString
  | String c s' => String (lower_char c) (lower s')
  end.

(** [s.lstrip()] *)
Fixpoint lstrip (s : string) : string :=
  match s with
  | EmptyString => EmptyString
  | String c s' => if isspace c then lstrip s' else s
  end.

(** [s.rstrip()] *)
Fixpoint rstrip (s : string) : string :=
  match s with
  | EmptyString => EmptyString
  | String c s' =>
      match rstrip s' with
      | EmptyString => if isspace c then EmptyString else String c EmptyString
      | r => String c r
      end
  end.

(** [s.strip()] *)
Definition strip (s : string) : string := rstrip (lstrip s).

(** [sep in s] for a one-character [sep]. *)
Fixpoint contains (sep : ascii) (s : string) : bool :=
  match s with
  | EmptyString => false
  | String c s' => if decide (c = sep) then true else contains sep s'
  end.

(** [s.split(sep)] for a one-character [sep]: the result is never
    empty, and [n] separators give [n + 1] fields. *)
Fixpoint split (sep : ascii) (s : string) : list string :=
  match s with
  | EmptyString => [EmptyString]
  | String c s' =>
      if decide (c = sep) then EmptyString :: split sep s'
      else match split sep s' with
           | [] => [String c EmptyString]
           | field :: fields => String c field :: fields
           end
  end.

(** [s.split(sep, 1)]: cut at the first separator only. *)
Fixpoint split1 (sep : ascii) (s : string) : list string :=
  match s with
  | EmptyString => [EmptyString]
  | String c s' =>
      if decide (c = sep) then [EmptyString; s']
      else match split1 sep s' with
           | [] => [String c EmptyString]
           | field :: fields => String c field :: fields
           end
  end.

(** The value of a decimal digit, by its character code. *)
Definition digit (c : ascii) : option Z :=
  let code := Z.of_N (N_of_ascii c) in
  if decide (48 ≤ code ≤ 57) then Some (code - 48) else None.

(** The digits of an integer literal, most significant first.  A single
    underscore is allowed between two digits; [after_digit] says that
    the previous character was a digit. *)
Fixpoint int_digits (acc : Z) (after_digit : bool) (s : string) : option Z :=
  match s with
  | EmptyString => if after_digit then Some acc else None
  | String c s' =>
      match digit c with
      | Some d => int_digits (10 * acc + d) true s'
      | None =>
          if decide (c = "_"%char) then
            if after_digit then int_digits acc false s' else None
          else None
      end
  end.

(** [int(s)] in base ten; [None] is the [ValueError].  White space
    around the literal is ignored and one sign may come first. *)
Definition int (s : string) : option Z :=
  match strip s with
  | String "-" s' => Z.opp <$> int_digits 0 false s'
  | String "+" s' => int_digits 0 false s'
  | s' => int_digits 0 false s'
  end.

(** [list(range(start, stop))] *)
Definition range (start stop : Z) : list Z := seqZ start (stop - start).

(** [list(range(start, stop, step))]; [None] is the [ValueError] for a
    zero step. *)
Definition range_step (start stop step : Z) : option (list Z) :=
  if decide (step = 0) then None
  else
    let len :=
      if decide (0 < step) then (stop - start + step - 1) `div` step
      else (start - stop - step - 1) `div` (- step) in
    Some ((λ k, start + k * step) <$> seqZ 0 len).

(** [sorted(list(set(l)))] on integers. *)
Definition sorted_set (l : list Z) : list Z :=
  merge_sort Z.le (elements (list_to_set l : gset Z)).

(** [sep.join(l)] *)
Fixpoint join (sep : string) (l : list string) : string :=
  match l with
  | [] => EmptyString
  | [s] => s
  | s :: l => s +:+ sep +:+ join sep l
  end.

(** The line feed of a ["\n"] escape. *)
Definition nl : string := String "010" EmptyString.

(** [os.path.join(dir, name)] for a relative [name]. *)
Definition path_join (dir name : string) : string :=
  match String.rev dir with
  | EmptyString => name
  | String "/" _ => dir +:+ name
  | _ => dir +:+ "/" +:+ name
  end.

End Py.

(** ** [utils/pdf_tools.py]: the page selector *)

(** One iteration of the loop over the comma-separated parts:
    [pages] is the list collected so far. *)
Definition parse_part (max_pages : Z) (pages : list Z) (part : string)
    : option (list Z) :=
  let part := Py.strip part in
  if Py.contains "-" part then
    match Py.split1 "-" part with
    | [start; end_] =>
        start ← Py.int (Py.strip start);
        end_ ← Py.int (Py.strip end_);
        if bool_decide (start ≤ end_ ∧ 1 ≤ start ∧ end_ ≤ max_pages)
        then Some (pages ++ Py.range start (end_ + 1))
        else Some pages
    | _ => None
    end
  else
    page_num ← Py.int part;
    if bool_decide (1 ≤ page_num ≤ max_pages)
    then Some (pages ++ [page_num])
    else Some pages.

(** The [for part in parts] loop. *)
Fixpoint parse_parts (max_pages : Z) (pages : list Z) (parts : list string)
    : option (list Z) :=
  match parts with
  | [] => Some pages
  | part :: parts =>
      pages ← parse_part max_pages pages part;
      parse_parts max_pages pages parts
  end.

Definition parse_page_numbers (page_input : string) (max_pages : Z) : list Z :=
  if decide (Py.strip (Py.lower page_input) = "all") then
    Py.range 1 (max_pages + 1)
  else
    match parse_parts max_pages [] (Py.split "," page_input) with
    | Some pages => Py.sorted_set pages
    | None => []
    end.

(** The two error texts of [validate_page_input]. *)
Definition empty_input_text : string := "Page input cannot be empty".

Definition invalid_format_text (max_pages : Z) : string :=
  "Invalid page format. Use numbers (1,2,3) or ranges (1-5) between 1 and "
    +:+ pretty max_pages.

Definition validate_page_input (page_input : string) (max_pages : Z)
    : bool * string :=
  if decide (Py.strip page_input = "") then (false, empty_input_text)
  else
    match parse_page_numbers page_input max_pages with
    | [] => (false, invalid_format_text max_pages)
    | _ => (true, "")
    end.

(** ** [utils/pdf_tools.py]: the transform engine *)

(** A page as the PDF library hands it out: the page's content, which no
    operation looks into, and its [/Rotate] entry in degrees. *)
Record page := Page { content : nat; rotation : Z }.

Global Instance page_eq_dec : EqDecision page.
Proof. solve_decision. Defined.

(** The readable PDF files on disk, by path. *)
Abbreviation files := (gmap string (list page)).

(** [writer.add_page(page)] *)
Definition add_page (writer : list page) (p : page) : list page :=
  writer ++ [p].

(** [reader.pages[i]]; a negative index counts from the end and [None]
    is the [IndexError]. *)
Definition pages_at (reader : list page) (i : Z) : option page :=
  let n := Z.of_nat (length reader) in
  let j := if decide (i < 0) then n + i else i in
  if decide (0 ≤ j) then reader !! Z.to_nat j else None.

(** Modelled from the spec: [page.rotate(angle)] of the PDF library, which
    is not part of the repository.  The page's rotation "is incremented by
    angle degrees (clockwise, modulo 360) relative to existing rotation";
    the content is not touched. *)
Definition page_rotate (p : page) (angle : Z) : page :=
  {| content := content p; rotation := (rotation p + angle) `mod` 360 |}.

(** [get_pdf_info(file_path)['pages']]: the page count, or 0 when the
    file cannot be read. *)
Definition get_pdf_info (fs : files) (file_path : string) : Z :=
  match fs !! file_path with
  | Some reader => Z.of_nat (length reader)
  | None => 0
  end.

(** The loop of [merge_pdfs] over the input files. *)
Fixpoint merge_loop (fs : files) (writer : list page) (pdf_files : list string)
    : option (list page) :=
  match pdf_files with
  | [] => Some writer
  | pdf_file :: pdf_files =>
      reader ← fs !! pdf_file;
      merge_loop fs (foldl add_page writer reader) pdf_files
  end.

Definition merge_pdfs (fs : files) (pdf_files : list string)
    (output_path : string) : bool * files :=
  match merge_loop fs [] pdf_files with
  | Some writer => (true, <[output_path := writer]> fs)
  | None => (false, fs)
  end.

(** The inner loop of [split_pdf_by_range]: the pages
    [start_page .. end_page - 1] go to a fresh writer. *)
Fixpoint copy_pages (reader writer : list page) (page_nums : list Z)
    : option (list page) :=
  match page_nums with
  | [] => Some writer
  | page_num :: page_nums =>
      p ← pages_at reader page_num;
      copy_pages reader (add_page writer p) page_nums
  end.

(** The output path of line 128 for the part with number [k]. *)
Definition part_path (output_dir : string) (k : Z) : string :=
  Py.path_join output_dir ("part_" +:+ pretty k +:+ ".pdf").

(** The outer loop of [split_pdf_by_range]; the state is the list of
    output paths and the disk.  [inl] carries the disk at the moment an
    exception was raised. *)
Fixpoint split_loop (reader : list page) (pages_per_file : Z)
    (output_dir : string) (output_files : list string) (fs : files)
    (starts : list Z) : files + list string * files :=
  match starts with
  | [] => inr (output_files, fs)
  | start_page :: starts =>
      let total_pages := Z.of_nat (length reader) in
      let end_page := Z.min (start_page + pages_per_file) total_pages in
      match copy_pages reader [] (Py.range start_page end_page) with
      | None => inl fs
      | Some writer =>
          let output_path :=
            part_path output_dir (start_page `div` pages_per_file + 1) in
          split_loop reader pages_per_file output_dir
            (output_files ++ [output_path])
            (<[output_path := writer]> fs) starts
      end
  end.

Definition split_pdf_by_range (fs : files) (input_path : string)
    (pages_per_file : Z) (output_dir : string) : list string * files :=
  match fs !! input_path with
  | None => ([], fs)
  | Some reader =>
      let total_pages := Z.of_nat (length reader) in
      match Py.range_step 0 total_pages pages_per_file with
      | None => ([], fs)
      | Some starts =>
          match split_loop reader pages_per_file output_dir [] fs starts with
          | inl fs' => ([], fs')
          | inr result => result
          end
      end
  end.

(** The loop of [delete_pages] over [range(len(reader.pages))]. *)
Fixpoint delete_loop (reader : list page) (pages_to_delete : list Z)
    (writer : list page) (page_nums : list Z) : option (list page) :=
  match page_nums with
  | [] => Some writer
  | page_num :: page_nums =>
      if bool_decide (page_num + 1 ∈ pages_to_delete) then
        delete_loop reader pages_to_delete writer page_nums
      else
        p ← pages_at reader page_num;
        delete_loop reader pages_to_delete (add_page writer p) page_nums
  end.

Definition delete_pages (fs : files) (input_path : string)
    (pages_to_delete : list Z) (output_path : string) : bool * files :=
  match fs !! input_path with
  | None => (false, fs)
  | Some reader =>
      match delete_loop reader pages_to_delete []
              (Py.range 0 (Z.of_nat (length reader))) with
      | Some writer => (true, <[output_path := writer]> fs)
      | None => (false, fs)
      end
  end.

(** An element of the [pages_to_rotate] list: the code looks for the
    string ['all'] among the page numbers. *)
Inductive item := Int (n : Z) | Str (s : string).

Global Instance item_eq_dec : EqDecision item.
Proof. solve_decision. Defined.

(** [str(p)] *)
Definition item_str (p : item) : string :=
  match p with
  | Int n => pretty n
  | Str s => s
  end.

(** The test of line 167:
    [(page_num + 1) in pages_to_rotate or
     'all' in [str(p).lower() for p in pages_to_rotate]]. *)
Definition rotate_selected (pages_to_rotate : list item) (page_num : Z) : bool :=
  bool_decide (Int (page_num + 1) ∈ pages_to_rotate)
  || bool_decide ("all" ∈ (λ p, Py.lower (item_str p)) <$> pages_to_rotate).

(** The loop of [rotate_pages] over [range(len(reader.pages))]. *)
Fixpoint rotate_loop (reader : list page) (pages_to_rotate : list item)
    (angle : Z) (writer : list page) (page_nums : list Z)
    : option (list page) :=
  match page_nums with
  | [] => Some writer
  | page_num :: page_nums =>
      p ← pages_at reader page_num;
      let p :=
        if rotate_selected pages_to_rotate page_num
        then page_rotate p angle else p in
      rotate_loop reader pages_to_rotate angle (add_page writer p) page_nums
  end.

Definition rotate_pages (fs : files) (input_path : string)
    (pages_to_rotate : list item) (angle : Z) (output_path : string)
    : bool * files :=
  match fs !! input_path with
  | None => (false, fs)
  | Some reader =>
      match rotate_loop reader pages_to_rotate angle []
              (Py.range 0 (Z.of_nat (length reader))) with
      | Some writer => (true, <[output_path := writer]> fs)
      | None => (false, fs)
      end
  end.

(** The loop of [reorder_pages] over [new_order]: an entry outside
    1 .. n is passed over. *)
Fixpoint reorder_loop (reader writer : list page) (new_order : list Z)
    : option (list page) :=
  match new_order with
  | [] => Some writer
  | page_num :: new_order =>
      if bool_decide (1 ≤ page_num ≤ Z.of_nat (length reader)) then
        p ← pages_at reader (page_num - 1);
        reorder_loop reader (add_page writer p) new_order
      else reorder_loop reader writer new_order
  end.

Definition reorder_pages (fs : files) (input_path : string)
    (new_order : list Z) (output_path : string) : bool * files :=
  match fs !! input_path with
  | None => (false, fs)
  | Some reader =>
      match reorder_loop reader [] new_order with
      | Some writer => (true, <[output_path := writer]> fs)
      | None => (false, fs)
      end
  end.

(** The output path of line 101 for the page with number [page_num]. *)
Definition page_path (output_dir : string) (page_num : Z) : string :=
  Py.path_join output_dir ("page_" +:+ pretty page_num +:+ ".pdf").

(** The loop of [split_pdf_by_pages]; the state is the list of output
    paths and the disk, as in [split_loop]. *)
Fixpoint split_pages_loop (reader : list page) (output_dir : string)
    (output_files : list string) (fs : files) (page_numbers : list Z)
    : files + list string * files :=
  match page_numbers with
  | [] => inr (output_files, fs)
  | page_num :: page_numbers =>
      if bool_decide (1 ≤ page_num ≤ Z.of_nat (length reader)) then
        match pages_at reader (page_num - 1) with
        | None => inl fs
        | Some p =>
            let writer := add_page [] p in
            let output_path := page_path output_dir page_num in
            split_pages_loop reader output_dir
              (output_files ++ [output_path])
              (<[output_path := writer]> fs) page_numbers
        end
      else split_pages_loop reader output_dir output_files fs page_numbers
  end.

Definition split_pdf_by_pages (fs : files) (input_path : string)
    (page_numbers : list Z) (output_dir : string) : list string * files :=
  match fs !! input_path with
  | None => ([], fs)
  | Some reader =>
      match split_pages_loop reader output_dir [] fs page_numbers with
      | inl fs' => ([], fs')
      | inr result => result
      end
  end.

(** ** The handlers: sessions and replies *)

Record file_info := FileInfo { path : string; name : string; size : Z }.

(** The entries of [session.temp_data] that the handlers below read or
    write; [None] is an absent key.  Each key only ever holds values of
    one type, which the record keeps apart. *)
Record temp_data := TempData {
  pages_to_delete : option (list Z);
  merge_files : option (list file_info);
  new_order : option (list Z)
}.

Record UserSession := Session {
  current_operation : option string;
  current_files : list file_info;
  current_step : option string;
  temp : temp_data
}.

(** [UserSession.reset], on the fields of the session. *)
Definition reset (session : UserSession) : UserSession :=
  Session None [] None (TempData None None None).

(** [session.temp_data['pages_to_delete'] = pages] *)
Definition set_pages_to_delete (session : UserSession) (pages : list Z)
    : UserSession :=
  let t := temp session in
  Session (current_operation session) (current_files session)
    (current_step session)
    (TempData (Some pages) (merge_files t) (new_order t)).

(** [session.temp_data['new_order'] = order] *)
Definition set_new_order (session : UserSession) (order : list Z)
    : UserSession :=
  let t := temp session in
  Session (current_operation session) (current_files session)
    (current_step session)
    (TempData (pages_to_delete t) (merge_files t) (Some order)).

(** What a handler sends to the chat, in order.  Keyboards are left out. *)
Inductive message :=
  | Reply (text : string)
  | Localized (key : string)
  | Document (filename caption : string) (doc : list page)
  | MainMenu.

(** [', '.join(map(str, pages))] *)
Definition show_pages (pages : list Z) : string :=
  Py.join ", " (pretty <$> pages).

(** *** [handlers/delete_pages.py] *)

Definition delete_all_text : string :=
  "❌ Cannot delete all pages. At least one page must remain.".

Definition delete_confirmation_text (pages : list Z) (remaining_pages : Z)
    : string :=
  "🗑️ **Pages to delete:** " +:+ show_pages pages +:+ Py.nl
    +:+ "📄 **Remaining pages:** " +:+ pretty remaining_pages
    +:+ Py.nl +:+ Py.nl +:+ "Proceed with deletion?".

Definition handle_delete_input (fs : files) (session : UserSession)
    (text : string) : bool * UserSession * list message :=
  if bool_decide (current_operation session ≠ Some "delete"
                  ∨ current_step session ≠ Some "waiting_pages_input")
  then (false, session, [])
  else
    let user_input := Py.strip text in
    match current_files session with
    | [] => (true, session, [Localized "errors.general"])
    | file :: _ =>
        let total_pages := get_pdf_info fs (path file) in
        let '(is_valid, error_msg) :=
          validate_page_input user_input total_pages in
        if negb is_valid then (true, session, [Reply error_msg])
        else
          let pages := parse_page_numbers user_input total_pages in
          if bool_decide (total_pages ≤ Z.of_nat (length pages)) then
            (true, session, [Reply delete_all_text])
          else
            let session' := set_pages_to_delete session pages in
            let remaining_pages := total_pages - Z.of_nat (length pages) in
            (true, session',
             [Reply (delete_confirmation_text pages remaining_pages)])
    end.

(** [output_path] is the result of [get_temp_file_path], which depends on
    the clock. *)
Definition execute_delete (fs : files) (session : UserSession)
    (output_path : string) : UserSession * list message :=
  match current_files session with
  | [] => (session, [Localized "messages.send_pdf"])
  | file :: _ =>
      match default [] (pages_to_delete (temp session)) with
      | [] => (session, [Localized "messages.no_pages_selected"])
      | pages =>
          let '(success, fs') := delete_pages fs (path file) pages output_path in
          match success, fs' !! output_path with
          | true, Some doc =>
              (reset session,
               [Localized "messages.processing";
                Document "pages_deleted.pdf" "messages.delete_completed" doc;
                MainMenu])
          | _, _ =>
              (session,
               [Localized "messages.processing";
                Localized "errors.processing_failed"])
          end
      end
  end.

(** *** [handlers/merge.py] *)

Definition execute_merge (fs : files) (session : UserSession)
    (output_path : string) : UserSession * list message :=
  let files_to_merge := default [] (merge_files (temp session)) in
  if bool_decide (length files_to_merge < 2)%nat then
    (session, [Localized "messages.no_pages_selected"])
  else
    let file_paths := path <$> files_to_merge in
    let '(success, fs') := merge_pdfs fs file_paths output_path in
    match success, fs' !! output_path with
    | true, Some doc =>
        (reset session,
         [Localized "messages.processing";
          Document "merged_document.pdf" "messages.merge_completed" doc;
          MainMenu])
    | _, _ =>
        (session,
         [Localized "messages.processing";
          Localized "errors.processing_failed"])
    end.

(** *** [handlers/reorder.py] *)

(** The outcome of lines 84-101 of [handle_reorder_input]: the three
    rejections, or the order that is kept. *)
Inductive order_result :=
  | InvalidFormat
  | WrongCount
  | InvalidNumbers
  | Order (order : list Z).

Definition parse_new_order (user_input : string) (total_pages : Z)
    : order_result :=
  match mapM (λ x, Py.int (Py.strip x)) (Py.split "," user_input) with
  | None => InvalidFormat
  | Some order =>
      if decide (Z.of_nat (length order) ≠ total_pages) then WrongCount
      else if decide ((list_to_set order : gset Z)
                      ≠ list_to_set (Py.range 1 (total_pages + 1)))
      then InvalidNumbers
      else Order order
  end.

Definition handle_reorder_input (fs : files) (session : UserSession)
    (text : string) : bool * UserSession * list message :=
  if bool_decide (current_operation session ≠ Some "reorder"
                  ∨ current_step session ≠ Some "waiting_order_input")
  then (false, session, [])
  else
    let user_input := Py.strip text in
    match current_files session with
    | [] => (true, session, [Localized "errors.general"])
    | file :: _ =>
        let total_pages := get_pdf_info fs (path file) in
        match parse_new_order user_input total_pages with
        | InvalidFormat =>
            (true, session,
             [Reply "❌ Invalid format. Please enter page numbers separated by commas (e.g., 3,1,2,4)."])
        | WrongCount =>
            (true, session,
             [Reply ("❌ You must specify exactly " +:+ pretty total_pages
                       +:+ " page numbers.")])
        | InvalidNumbers =>
            (true, session,
             [Reply ("❌ Invalid page numbers. Use each page number from 1 to "
                       +:+ pretty total_pages +:+ " exactly once.")])
        | Order order =>
            let session' := set_new_order session order in
            (true, session',
             [Reply ("📋 **New page order:** " +:+ show_pages order +:+ Py.nl
                       +:+ "📄 **Original order:** "
                       +:+ show_pages (Py.range 1 (total_pages + 1))
                       +:+ Py.nl +:+ Py.nl +:+ "Proceed with reordering?")])
        end
    end.

(** [execute_reorder]; [output_path] is the result of
    [get_temp_file_path]. *)
Definition execute_reorder (fs : files) (session : UserSession)
    (output_path : string) : UserSession * list message :=
  match current_files session with
  | [] => (session, [Localized "messages.send_pdf"])
  | file :: _ =>
      match default [] (new_order (temp session)) with
      | [] => (session, [Localized "messages.no_pages_selected"])
      | order =>
          let '(success, fs') := reorder_pages fs (path file) order output_path in
          match success, fs' !! output_path with
          | true, Some doc =>
              (reset session,
               [Localized "messages.processing";
                Document "pages_reordered.pdf" "messages.reorder_completed" doc;
                MainMenu])
          | _, _ =>
              (session,
               [Localized "messages.processing";
                Localized "errors.processing_failed"])
          end
      end
  end.

(** *** [handlers/split.py] *)

(** Lines 174-187 of [handle_split_input], the branch that waits for the
    part size: [None] is the rejection, otherwise the part size that is
    stored and the number of files that is announced. *)
Definition parse_pages_per_file (user_input : string) (total_pages : Z)
    : option (Z * Z) :=
  pages_per_file ← Py.int user_input;
  if bool_decide (pages_per_file ≤ 0 ∨ total_pages < pages_per_file) then None
  else
    let num_files :=
      (total_pages + pages_per_file - 1) `div` pages_per_file in
    Some (pages_per_file, num_files).

(** *** [handlers/rotate.py] *)

(** Lines 150-162 of [handle_rotate_input]: the error text that is sent,
    or the list that is stored as [pages_to_rotate]. *)
Definition rotate_input_pages (user_input : string) (total_pages : Z)
    : string + list Z :=
  if decide (Py.lower user_input = "all") then
    inr (Py.range 1 (total_pages + 1))
  else
    let '(is_valid, error_msg) := validate_page_input user_input total_pages in
    if negb is_valid then inl error_msg
    else inr (parse_page_numbers user_input total_pages).

(** ** [utils/cleanup.py]: names of temporary files *)

Module PyPath.

(** [s.replace(old, new)] for a one-character [old]. *)
Fixpoint replace1 (old : ascii) (new : string) (s : string) : string :=
  match s with
  | EmptyString => EmptyString
  | String c s' =>
      if decide (c = old) then new +:+ replace1 old new s'
      else String c (replace1 old new s')
  end.

(** [s.replace(old, new)] for a two-character [old]: the occurrences are
    taken from the left and do not overlap. *)
Fixpoint replace2 (old1 old2 : ascii) (new : string) (s : string) : string :=
  match s with
  | EmptyString => EmptyString
  | String c s' =>
      match s' with
      | String d s'' =>
          if decide (c = old1 ∧ d = old2) then new +:+ replace2 old1 old2 new s''
          else String c (replace2 old1 old2 new s')
      | EmptyString => String c EmptyString
      end
  end.

(** [s.replace(old, new)] for the patterns of one or two characters that
    the code uses; other patterns are outside the model and leave [s] as
    it is. *)
Definition replace (old new s : string) : string :=
  match old with
  | String a EmptyString => replace1 a new s
  | String a (String b EmptyString) => replace2 a b new s
  | _ => s
  end.

(** [s.rfind(c)]: the last index of [c] in [s], or -1; [i] is the index
    of the first character of [s] and [found] the last index seen. *)
Fixpoint rfind_from (c : ascii) (i found : Z) (s : string) : Z :=
  match s with
  | EmptyString => found
  | String x s' => rfind_from c (i + 1) (if decide (x = c) then i else found) s'
  end.

Definition rfind (c : ascii) (s : string) : Z := rfind_from c 0 (-1) s.

(** [s[:n]] *)
Fixpoint take (n : nat) (s : string) : string :=
  match n, s with
  | S n, String c s' => String c (take n s')
  | _, _ => EmptyString
  end.

(** [s[n:]] *)
Fixpoint drop (n : nat) (s : string) : string :=
  match n, s with
  | S n, String _ s' => drop n s'
  | _, _ => s
  end.

(** The loop of [os.path.splitext] that passes over leading dots: [true]
    when a character other than the dot is found within [steps]
    positions from [filenameIndex]. *)
Fixpoint skip_dots (p : string) (filenameIndex steps : nat) : bool :=
  match steps with
  | O => false
  | S steps =>
      if decide (take 1 (drop filenameIndex p) ≠ ".") then true
      else skip_dots p (S filenameIndex) steps
  end.

(** [os.path.splitext(p)] on a POSIX system. *)
Definition splitext (p : string) : string * string :=
  let sepIndex := rfind "/" p in
  let dotIndex := rfind "." p in
  if decide (sepIndex < dotIndex) then
    let filenameIndex := sepIndex + 1 in
    if skip_dots p (Z.to_nat filenameIndex)
         (Z.to_nat (dotIndex - filenameIndex))
    then (take (Z.to_nat dotIndex) p, drop (Z.to_nat dotIndex) p)
    else (p, EmptyString)
  else (p, EmptyString).

End PyPath.

(** The double quote. *)
Definition quote_char : ascii := "034"%char.

Definition dangerous_chars : list string :=
  ["/"; "\"; ".."; ":"; "*"; "?"; String quote_char EmptyString; "<"; ">";
   "|"].

Definition sanitize_filename (filename : string) : string :=
  let safe_name :=
    foldl (λ safe_name char, PyPath.replace char "_" safe_name)
      filename dangerous_chars in
  if decide (100 < String.length safe_name)%nat then
    let '(name, ext) := PyPath.splitext safe_name in
    PyPath.take 95 name +:+ ext
  else safe_name.

(** [get_temp_file_path(user_id, filename)] at the time [timestamp], with
    [TEMP_DIR] as [config/settings.py] sets it. *)
Definition get_temp_file_path (timestamp user_id : Z) (filename : string)
    : string :=
  Py.path_join "/tmp"
    ("user_" +:+ pretty user_id +:+ "_" +:+ pretty timestamp +:+ "_"
       +:+ sanitize_filename filename).

(** [s.startswith(prefix)] *)
Fixpoint startswith (prefix s : string) : bool :=
  match prefix, s with
  | EmptyString, _ => true
  | String a prefix', String b s' => bool_decide (a = b) && startswith prefix' s'
  | String _ _, EmptyString => false
  end.

(** The name under which [os.listdir(TEMP_DIR)] lists the file at [path]:
    the rest of the path after the directory, when the file lies
    directly in it. *)
Definition temp_name (path : string) : option string :=
  if startswith "/tmp/" path then
    let filename := PyPath.drop 5 path in
    if Py.contains "/" filename then None else Some filename
  else None.

(** [cleanup_user_files(user_id)]: every file directly in the temporary
    directory whose name starts with the user's prefix is removed. *)
Definition cleanup_user_files (fs : files) (user_id : Z) : files :=
  let user_prefix := "user_" +:+ pretty user_id +:+ "_" in
  filter (λ entry,
            match temp_name entry.1 with
            | Some filename => startswith user_prefix filename
            | None => false
            end = false) fs.

(** ** The specification's reading of the selector *)

(** A token parses: both ends of a range, or the single number, are
    integer literals. *)
Definition valid_token (part : string) : bool :=
  let part := Py.strip part in
  if Py.contains "-" part then
    match Py.split1 "-" part with
    | [start; end_] =>
        bool_decide (is_Some (Py.int (Py.strip start))
                     ∧ is_Some (Py.int (Py.strip end_)))
    | _ => false
    end
  else bool_decide (is_Some (Py.int part)).


(** The loop as the specification words it: a token that fails is
    dropped and the tokens after it are still read. *)
Fixpoint parse_parts_dropping (max_pages : Z) (pages : list Z)
    (parts : list string) : list Z :=
  match parts with
  | [] => pages
  | part :: parts =>
      parse_parts_dropping max_pages
        (default pages (parse_part max_pages pages part)) parts
  end.


(** White space only. *)
Fixpoint blank (s : string) : bool :=
  match s with
  | EmptyString => true
  | String c s' => Py.isspace c && blank s'
  end.

(** The keyword [all] in any letter case, with white space around it. *)
Definition all_keyword (page_input : string) : Prop :=
  ∃ before word after,
    page_input = before +:+ word +:+ after
    ∧ blank before = true ∧ blank after = true ∧ Py.lower word = "all".

(** The pages [1 .. n] in order. *)
Definition pages_upto (n : Z) : list Z := Z.of_nat <$> seq 1 (Z.to_nat n).

(** ** The specification's reading of the transformations *)

(** The pages whose 1-based index is not in the selection, in their
    original order; [first] is the index of the first page of [doc]. *)
Fixpoint pages_not_in (first : Z) (doc : list page) (selection : list Z)
    : list page :=
  match doc with
  | [] => []
  | p :: doc =>
      if decide (first ∈ selection)
      then pages_not_in (first + 1) doc selection
      else p :: pages_not_in (first + 1) doc selection
  end.

(** The run of [size] consecutive pages with number [k], counting
    from 0. *)
Definition chunk (size : nat) (doc : list page) (k : nat) : list page :=
  take size (drop (k * size) doc).

(** Every page of [doc] in order, turned by [angle] when the test of
    line 167 selects its 0-based number; [page_num] is the number of the
    first page of [doc]. *)
Fixpoint rotate_from (pages_to_rotate : list item) (angle : Z)
    (page_num : Z) (doc : list page) : list page :=
  match doc with
  | [] => []
  | p :: doc =>
      (if rotate_selected pages_to_rotate page_num
       then page_rotate p angle else p)
        :: rotate_from pages_to_rotate angle (page_num + 1) doc
  end.

(** A decimal numeral starts with a digit or a minus sign. *)
Definition numeral_start (s : string) : bool :=
  match s with
  | EmptyString => true
  | String c _ =>
      bool_decide (c = "-"%char) || bool_decide (is_Some (Py.digit c))
  end.

(** The pages that [order] names, in that order; an entry outside
    1 .. n names no page. *)
Definition pages_in_order (doc : list page) (order : list Z) : list page :=
  omap (λ k, if decide (1 ≤ k ≤ Z.of_nat (length doc))
             then doc !! Z.to_nat (k - 1) else None) order.

(** What one token adds to the selection: the pages of [parse_part] from
    an empty list. *)
Definition token_pages (max_pages : Z) (part : string) : option (list Z) :=
  parse_part max_pages [] part.

(** The one-page document of page [k] of [doc]. *)
Definition single_page (doc : list page) (k : Z) : list page :=
  match doc !! Z.to_nat (k - 1) with
  | Some p => [p]
  | None => []
  end.

(** Decimal digits only. *)
Fixpoint digits (s : string) : bool :=
  match s with
  | EmptyString => true
  | String c s' => bool_decide (is_Some (Py.digit c)) && digits s'
  end.

(** ** Running examples *)

(** A three-page file on disk, and a session that waits for its new page
    order. *)
Definition three_pages : list page := [Page 0 0; Page 1 90; Page 2 0].
Definition reorder_disk : files := {[ "/tmp/user_1_in.pdf" := three_pages ]}.
Definition reorder_session : UserSession :=
  Session (Some "reorder") [FileInfo "/tmp/user_1_in.pdf" "in.pdf" 2048]
    (Some "waiting_order_input") (TempData None None None).

(** A seven-page file to split. *)
Definition seven_pages : list page := (λ k, Page k 0) <$> seq 0 7.
Definition split_disk : files := {[ "/tmp/user_1_in.pdf" := seven_pages ]}.

(** ** Facts about the built-ins *)

(** Membership in a list that is written out. *)
Ltac in_list :=
  repeat first [apply list_elem_of_here | apply list_elem_of_further].

Section builtins.

Lemma list_elem_of_weaken {A} (x a b c : A) : x ∈ [a; b] → x ∈ [a; b; c].
Proof.
  rewrite !elem_of_cons. intros [->|[->|[]%elem_of_nil]]; auto.
Qed.

Lemma isspace_lower_char c : Py.isspace (Py.lower_char c) = Py.isspace c.
Proof. by destruct c as [[] [] [] [] [] [] [] []]. Qed.

Lemma app_cons c s1 s2 : String c s1 +:+ s2 = String c (s1 +:+ s2).
Proof. reflexivity. Qed.

Lemma app_empty s : "" +:+ s = s.
Proof. reflexivity. Qed.

Lemma lower_app s1 s2 : Py.lower (s1 +:+ s2) = Py.lower s1 +:+ Py.lower s2.
Proof.
  induction s1 as [|c s1 IH]; [done|].
  rewrite app_cons. cbn [Py.lower]. by rewrite IH, app_cons.
Qed.

Lemma blank_lower s : blank (Py.lower s) = blank s.
Proof.
  induction s as [|c s IH]; [done|]. cbn.
  by rewrite isspace_lower_char, IH.
Qed.

Lemma lstrip_blank_app s1 s2 :
  blank s1 = true → Py.lstrip (s1 +:+ s2) = Py.lstrip s2.
Proof.
  induction s1 as [|c s1 IH]; [done|]. cbn [blank].
  intros [Hc Hs]%andb_true_iff. rewrite app_cons. cbn [Py.lstrip].
  rewrite Hc. auto.
Qed.

Lemma rstrip_blank s : blank s = true → Py.rstrip s = "".
Proof.
  induction s as [|c s IH]; [done|]. cbn.
  intros [Hc Hs]%andb_true_iff. by rewrite IH, Hc.
Qed.

Lemma rstrip_app_blank s1 s2 :
  blank s2 = true → Py.rstrip (s1 +:+ s2) = Py.rstrip s1.
Proof.
  intros Hs2. induction s1 as [|c s1 IH].
  - rewrite app_empty. by apply rstrip_blank.
  - rewrite app_cons. cbn [Py.rstrip]. by rewrite IH.
Qed.

Lemma all_keyword_test page_input :
  all_keyword page_input → Py.strip (Py.lower page_input) = "all".
Proof.
  intros (before & word & after & -> & Hb & Ha & Hw).
  rewrite !lower_app, Hw. unfold Py.strip.
  rewrite lstrip_blank_app by by rewrite blank_lower.
  change (Py.lstrip ("all" +:+ Py.lower after)) with ("all" +:+ Py.lower after).
  rewrite rstrip_app_blank by by rewrite blank_lower. done.
Qed.

Lemma range_upto n : Py.range 1 (n + 1) = pages_upto n.
Proof.
  unfold Py.range, pages_upto, seqZ.
  replace (n + 1 - 1) with n by lia.
  rewrite <-(fmap_S_seq 0), <-!list_fmap_compose.
  apply list_fmap_ext. intros _ k _. cbn. lia.
Qed.

Lemma seqZ_sorted m n : StronglySorted Z.lt (seqZ m n).
Proof.
  unfold seqZ. generalize (Z.to_nat n) as k. intros k.
  apply (StronglySorted_fmap _ lt); [intros x y Hxy; lia|].
  generalize 0%nat as j. induction k as [|k IH]; intros j; cbn.
  - constructor.
  - constructor; [apply IH|]. apply Forall_seq. lia.
Qed.

Lemma elem_of_sorted_set x l : x ∈ Py.sorted_set l ↔ x ∈ l.
Proof.
  unfold Py.sorted_set.
  by rewrite merge_sort_Permutation, elem_of_elements, elem_of_list_to_set.
Qed.

Lemma sorted_set_NoDup l : NoDup (Py.sorted_set l).
Proof.
  unfold Py.sorted_set. rewrite merge_sort_Permutation. apply NoDup_elements.
Qed.

Lemma le_sorted_NoDup_lt (l : list Z) :
  StronglySorted Z.le l → NoDup l → StronglySorted Z.lt l.
Proof.
  induction 1 as [|x l Hl IH Hx]; intros Hnd; [constructor|].
  apply NoDup_cons in Hnd as [Hxl Hnd]. constructor; [by apply IH|].
  rewrite Forall_forall in Hx |- *. intros y Hy.
  assert (x ≠ y) by (by intros ->). specialize (Hx y Hy). lia.
Qed.

Lemma sorted_set_sorted l : StronglySorted Z.lt (Py.sorted_set l).
Proof.
  apply le_sorted_NoDup_lt; [|apply sorted_set_NoDup].
  unfold Py.sorted_set. apply (StronglySorted_merge_sort _).
Qed.

Lemma sorted_set_nil : Py.sorted_set [] = [].
Proof. done. Qed.

End builtins.

(** ** Facts about the page selector *)

Section selector.

Lemma parse_part_valid n pages part :
  is_Some (parse_part n pages part) ↔ valid_token part = true.
Proof.
  unfold parse_part, valid_token.
  destruct (Py.contains "-" (Py.strip part)).
  - destruct (Py.split1 "-" (Py.strip part)) as [|a [|b [|c l]]];
      try (split; [by intros [? ?]|done]).
    rewrite bool_decide_eq_true.
    destruct (Py.int (Py.strip a)) as [x|]; cbn;
      [|split; [by intros [? ?]|by intros [[? ?] _]]].
    destruct (Py.int (Py.strip b)) as [y|]; cbn;
      [|split; [by intros [? ?]|by intros [_ [? ?]]]].
    case_bool_decide; split; eauto.
  - rewrite bool_decide_eq_true.
    destruct (Py.int (Py.strip part)) as [x|]; cbn;
      [|split; by intros [? ?]].
    case_bool_decide; split; eauto.
Qed.

Lemma parse_parts_invalid n pages parts :
  Exists (λ part, valid_token part = false) parts →
  parse_parts n pages parts = None.
Proof.
  intros Hex. revert pages.
  induction Hex as [part parts Hbad|part parts _ IH]; intros pages; cbn.
  - destruct (parse_part n pages part) as [pages'|] eqn:Hp; [|done].
    assert (valid_token part = true) as Hv
      by (by apply (parse_part_valid n pages); rewrite Hp).
    congruence.
  - destruct (parse_part n pages part); cbn; [apply IH|done].
Qed.

Lemma parse_parts_valid n pages parts :
  Forall (λ part, valid_token part = true) parts →
  parse_parts n pages parts = Some (parse_parts_dropping n pages parts).
Proof.
  intros Hall. revert pages.
  induction Hall as [|part parts Hok _ IH]; intros pages; cbn; [done|].
  apply (parse_part_valid n pages) in Hok as [pages' ->]. cbn. apply IH.
Qed.

Lemma parse_part_bounds n pages part pages' :
  parse_part n pages part = Some pages' →
  Forall (λ p, 1 ≤ p ≤ n) pages → Forall (λ p, 1 ≤ p ≤ n) pages'.
Proof.
  unfold parse_part. intros Hp Hpages.
  destruct (Py.contains "-" (Py.strip part)).
  - destruct (Py.split1 "-" (Py.strip part)) as [|a [|b [|c l]]]; try done.
    destruct (Py.int (Py.strip a)) as [x|]; [|done].
    destruct (Py.int (Py.strip b)) as [y|]; [|done]. cbn in Hp.
    case_bool_decide; simplify_eq; [|done].
    apply Forall_app; split; [done|].
    apply Forall_seqZ. lia.
  - destruct (Py.int (Py.strip part)) as [x|]; [|done]. cbn in Hp.
    case_bool_decide; simplify_eq; [|done].
    apply Forall_app; split; [done|]. by constructor.
Qed.

Lemma parse_parts_bounds n parts : ∀ pages pages',
  parse_parts n pages parts = Some pages' →
  Forall (λ p, 1 ≤ p ≤ n) pages → Forall (λ p, 1 ≤ p ≤ n) pages'.
Proof.
  induction parts as [|part parts IH]; intros pages pages' Hp Hpages; cbn in Hp.
  - by simplify_eq.
  - destruct (parse_part n pages part) as [pages1|] eqn:H1; [|done].
    eapply IH; [exact Hp|]. by eapply parse_part_bounds.
Qed.

Lemma parse_page_numbers_bounds e n :
  Forall (λ p, 1 ≤ p ≤ n) (parse_page_numbers e n).
Proof.
  unfold parse_page_numbers. case_decide.
  - apply Forall_seqZ. lia.
  - destruct (parse_parts n [] (Py.split "," e)) as [pages|] eqn:Hp; [|done].
    apply Forall_forall. intros x Hx. rewrite elem_of_sorted_set in Hx.
    pose proof (parse_parts_bounds n _ [] pages Hp (Forall_nil_2 _)) as Hb.
    rewrite Forall_forall in Hb. by apply Hb.
Qed.

Lemma parse_page_numbers_sorted e n :
  StronglySorted Z.lt (parse_page_numbers e n).
Proof.
  unfold parse_page_numbers. case_decide; [apply seqZ_sorted|].
  destruct (parse_parts n [] (Py.split "," e)); [apply sorted_set_sorted|].
  constructor.
Qed.

Lemma parse_page_numbers_NoDup e n : NoDup (parse_page_numbers e n).
Proof.
  unfold parse_page_numbers. case_decide; [apply NoDup_seqZ|].
  destruct (parse_parts n [] (Py.split "," e)); [apply sorted_set_NoDup|].
  constructor.
Qed.

End selector.

(** ** The page selector: what the specification claims *)

Section selector_claims.

Lemma lower_lstrip s : Py.lower (Py.lstrip s) = Py.lstrip (Py.lower s).
Proof.
  induction s as [|c s IH]; [done|]. cbn.
  rewrite isspace_lower_char. by destruct (Py.isspace c).
Qed.

Lemma lower_rstrip s : Py.lower (Py.rstrip s) = Py.rstrip (Py.lower s).
Proof.
  induction s as [|c s IH]; [done|]. cbn. rewrite <-IH.
  destruct (Py.rstrip s); cbn; [|done].
  rewrite isspace_lower_char. by destruct (Py.isspace c).
Qed.

Lemma lower_strip s : Py.lower (Py.strip s) = Py.strip (Py.lower s).
Proof. unfold Py.strip. by rewrite lower_rstrip, lower_lstrip. Qed.


End selector_claims.


(** C2: for every expression and page count the selection lies within
    [1, n], is strictly ascending and has no duplicates; overlapping
    ranges are united, and a reversed range alone gives the empty
    selection, which the validator rejects. *)
Theorem parse_page_numbers_canonical :
  (∀ e n,
     Forall (λ p, 1 ≤ p ≤ n) (parse_page_numbers e n)
     ∧ StronglySorted Z.lt (parse_page_numbers e n)
     ∧ NoDup (parse_page_numbers e n))
  ∧ parse_page_numbers "1-3,2-5" 10 = [1; 2; 3; 4; 5]
  ∧ parse_page_numbers "5-2" 10 = []
  ∧ (validate_page_input "5-2" 10).1 = false.
Proof.
  split; [|by vm_compute].
  intros e n.
  auto using parse_page_numbers_bounds, parse_page_numbers_sorted,
    parse_page_numbers_NoDup.
Qed.

(** C3: the keyword [all], in any letter case and with white space around
    it, selects the pages 1 to n when n is at least 1; for n = 0 the
    selection is empty and [validate_page_input] reports invalid input. *)
Theorem parse_page_numbers_all e n :
  all_keyword e →
  (1 ≤ n →
   parse_page_numbers e n = pages_upto n
   ∧ Z.of_nat (length (parse_page_numbers e n)) = n)
  ∧ (n = 0 →
     parse_page_numbers e n = []
     ∧ validate_page_input e n = (false, invalid_format_text 0)).
Proof.
  intros Hkw. pose proof (all_keyword_test e Hkw) as Htest.
  assert (parse_page_numbers e n = pages_upto n) as Hp.
  { unfold parse_page_numbers. rewrite decide_True by done. apply range_upto. }
  split.
  - intros Hn. split; [done|]. rewrite Hp. unfold pages_upto.
    rewrite length_fmap, length_seq. lia.
  - intros ->. split; [done|].
    unfold validate_page_input. rewrite decide_False.
    + by rewrite Hp.
    + intros Hempty. rewrite <-lower_strip, Hempty in Htest. done.
Qed.

Lemma parse_page_numbers_all_witness :
  parse_page_numbers " All " 3 = [1; 2; 3]
  ∧ Z.of_nat (length (parse_page_numbers " All " 3)) = 3.
Proof.
  assert (all_keyword " All ") as Hkw.
  { exists " ", "All", " ". repeat split; reflexivity. }
  apply (proj1 (parse_page_numbers_all " All " 3 Hkw)). lia.
Defined.

(** ** The reorder parser *)

Section reorder.

(** A list of [n] integers with the same set of values as [1 .. n] is
    a rearrangement of [1 .. n]. *)
Lemma same_set_same_length_perm (order : list Z) n :
  Z.of_nat (length order) = n →
  (list_to_set order : gset Z) = list_to_set (Py.range 1 (n + 1)) →
  order ≡ₚ pages_upto n.
Proof.
  intros Hlen Hset. rewrite <-range_upto. symmetry.
  apply submseteq_length_Permutation.
  - apply NoDup_submseteq; [apply NoDup_seqZ|].
    intros x Hx. apply (elem_of_list_to_set (C := gset Z)).
    rewrite Hset. by apply elem_of_list_to_set.
  - unfold Py.range. rewrite length_seqZ. lia.
Qed.

Lemma parse_new_order_spec text n order :
  parse_new_order text n = Order order ↔
  mapM (λ x, Py.int (Py.strip x)) (Py.split "," text) = Some order
  ∧ Z.of_nat (length (Py.split "," text)) = n
  ∧ order ≡ₚ pages_upto n.
Proof.
  unfold parse_new_order.
  destruct (mapM _ (Py.split "," text)) as [order'|] eqn:Hm.
  - pose proof (length_mapM _ _ _ Hm) as Hlen. rewrite Hlen.
    destruct (decide (Z.of_nat (length order') ≠ n)) as [Hne|Hn].
    { split; [done|]. by intros (_ & ? & _). }
    apply dec_stable in Hn.
    destruct (decide (list_to_set order' ≠@{gset Z}
                      list_to_set (Py.range 1 (n + 1)))) as [Hne|Hset].
    { split; [done|]. intros (Heq & _ & Hperm). simplify_eq.
      destruct Hne. rewrite range_upto.
      by apply (list_to_set_perm_L (C := gset Z)). }
    apply dec_stable in Hset. split.
    + intros [= ->]. split_and!; [done|done|].
      by apply same_set_same_length_perm.
    + by intros ([= ->] & _ & _).
  - split; [done|]. by intros [? _].
Qed.

End reorder.

(** C4: the reorder parser accepts an input exactly when every
    comma-separated token is an integer literal, the number of tokens is
    the page count, and the values are a rearrangement of 1 .. page count;
    the accepted order is the entered one.  ["3,1,2"] is kept as
    [3, 1, 2]; ["1,1,2"] and ["1,2"] are answered with an error and leave
    the session as it was. *)
Theorem reorder_input_accepts_permutations :
  (∀ text n order,
     parse_new_order text n = Order order ↔
     mapM (λ x, Py.int (Py.strip x)) (Py.split "," text) = Some order
     ∧ Z.of_nat (length (Py.split "," text)) = n
     ∧ order ≡ₚ pages_upto n)
  ∧ (handle_reorder_input reorder_disk reorder_session "3,1,2").1
      = (true, set_new_order reorder_session [3; 1; 2])
  ∧ handle_reorder_input reorder_disk reorder_session "1,1,2"
      = (true, reorder_session,
         [Reply "❌ Invalid page numbers. Use each page number from 1 to 3 exactly once."])
  ∧ handle_reorder_input reorder_disk reorder_session "1,2"
      = (true, reorder_session,
         [Reply "❌ You must specify exactly 3 page numbers."]).
Proof.
  split; [apply parse_new_order_spec|]. by vm_compute.
Qed.

(** ** Facts about the transform engine *)

Section engine.

Lemma foldl_add_page writer reader :
  foldl add_page writer reader = writer ++ reader.
Proof.
  revert writer. induction reader as [|p reader IH]; intros writer; cbn.
  - by rewrite app_nil_r.
  - rewrite IH. unfold add_page. by rewrite <-app_assoc.
Qed.

Lemma pages_at_nat reader (i : nat) :
  pages_at reader (Z.of_nat i) = reader !! i.
Proof.
  unfold pages_at. cbv zeta.
  destruct (decide (Z.of_nat i < 0)); [lia|].
  destruct (decide (0 ≤ Z.of_nat i)); [|lia].
  by rewrite Nat2Z.id.
Qed.

Lemma pages_at_middle pre p rest :
  pages_at (pre ++ p :: rest) (Z.of_nat (length pre)) = Some p.
Proof. rewrite pages_at_nat. by apply list_lookup_middle. Qed.

(** The page numbers still to visit when [pre] has been visited. *)
Lemma page_nums_cons (pre : list page) p rest :
  seqZ (Z.of_nat (length pre)) (Z.of_nat (length (p :: rest))) =
  Z.of_nat (length pre)
    :: seqZ (Z.of_nat (length (pre ++ [p]))) (Z.of_nat (length rest)).
Proof.
  rewrite seqZ_cons by (cbn [length]; lia). f_equal.
  rewrite length_app. cbn [length]. f_equal; lia.
Qed.

Lemma merge_loop_spec fs pdf_files docs : ∀ writer,
  Forall2 (λ pdf_file doc, fs !! pdf_file = Some doc) pdf_files docs →
  merge_loop fs writer pdf_files = Some (writer ++ concat docs).
Proof.
  intros writer Hdocs. revert writer.
  induction Hdocs as [|pdf_file doc pdf_files docs Hdoc _ IH];
    intros writer; cbn.
  - by rewrite app_nil_r.
  - rewrite Hdoc. cbn. rewrite IH, foldl_add_page. by rewrite <-app_assoc.
Qed.

Lemma delete_loop_spec selection rest : ∀ pre writer,
  delete_loop (pre ++ rest) selection writer
    (seqZ (Z.of_nat (length pre)) (Z.of_nat (length rest)))
  = Some (writer
            ++ pages_not_in (Z.of_nat (length pre) + 1) rest selection).
Proof.
  induction rest as [|p rest IH]; intros pre writer.
  - rewrite seqZ_nil by (cbn [length]; lia).
    cbn [delete_loop pages_not_in]. by rewrite app_nil_r.
  - rewrite page_nums_cons. cbn [delete_loop pages_not_in].
    assert (Z.of_nat (length (pre ++ [p])) = Z.of_nat (length pre) + 1)
      as Hlen by (rewrite length_app; cbn; lia).
    rewrite (cons_middle p pre rest), app_assoc.
    case_bool_decide.
    + rewrite decide_True by done. by rewrite IH, Hlen.
    + rewrite decide_False by done.
      rewrite <-app_assoc, <-cons_middle, pages_at_middle. cbn.
      rewrite (cons_middle p pre rest), app_assoc, IH, Hlen.
      unfold add_page. by rewrite <-app_assoc.
Qed.

Lemma delete_pages_spec fs input_path selection output_path reader :
  fs !! input_path = Some reader →
  delete_pages fs input_path selection output_path =
  (true, <[output_path := pages_not_in 1 reader selection]> fs).
Proof.
  intros Hin. unfold delete_pages, Py.range. rewrite Hin.
  replace (Z.of_nat (length reader) - 0) with (Z.of_nat (length reader))
    by lia.
  pose proof (delete_loop_spec selection reader [] []) as Hloop.
  cbn in Hloop. change (Z.of_nat 0) with 0 in Hloop. by rewrite Hloop.
Qed.

Lemma pages_not_in_length first doc selection :
  length (pages_not_in first doc selection) =
  length (filter (λ i, i ∉ selection) (seqZ first (Z.of_nat (length doc)))).
Proof.
  revert first. induction doc as [|p doc IH]; intros first; [done|].
  rewrite seqZ_cons by (cbn; lia).
  replace (Z.pred (Z.of_nat (length (p :: doc))))
    with (Z.of_nat (length doc)) by (cbn; lia).
  cbn [pages_not_in]. rewrite filter_cons.
  replace (Z.succ first) with (first + 1) by lia.
  case_decide.
  - rewrite decide_False by tauto. apply IH.
  - rewrite decide_True by done. cbn. by rewrite IH.
Qed.

Lemma pages_not_in_sublist first doc selection :
  sublist (pages_not_in first doc selection) doc.
Proof.
  revert first. induction doc as [|p doc IH]; intros first; cbn.
  - constructor.
  - case_decide; [by apply sublist_cons|by apply sublist_skip].
Qed.

(** How many pages remain when the selection is a set of valid
    indices. *)
Lemma pages_not_in_count doc selection :
  NoDup selection →
  Forall (λ p, 1 ≤ p ≤ Z.of_nat (length doc)) selection →
  (length (pages_not_in 1 doc selection) + length selection)%nat
  = length doc.
Proof.
  intros Hnd Hin. rewrite pages_not_in_length.
  set (l := seqZ 1 (Z.of_nat (length doc))).
  assert (filter (λ i, i ∈ selection) l ≡ₚ selection) as Hsel.
  { apply NoDup_Permutation; [apply NoDup_filter, NoDup_seqZ|done|].
    intros x. rewrite list_elem_of_filter. unfold l. rewrite elem_of_seqZ.
    rewrite Forall_forall in Hin. split; [tauto|]. intros Hx.
    specialize (Hin x Hx). split; [done|lia]. }
  apply Permutation_length in Hsel.
  pose proof (filter_app_complement (λ i, i ∈ selection) l) as Hall.
  apply Permutation_length in Hall. rewrite length_app in Hall.
  assert (length l = length doc) as Hl
    by (unfold l; rewrite length_seqZ; lia).
  lia.
Qed.

End engine.

(** ** Deleting pages *)

Section delete.

Lemma lstrip_cases s :
  (blank s = true ∧ Py.lstrip s = "")
  ∨ ∃ c s', Py.lstrip s = String c s' ∧ Py.isspace c = false.
Proof.
  induction s as [|c s IH]; [by left|]. cbn.
  destruct (Py.isspace c) eqn:Hc; cbn; [done|]. right. eauto.
Qed.

Lemma strip_empty_blank s : Py.strip s = "" → blank s = true.
Proof.
  unfold Py.strip. destruct (lstrip_cases s) as [[? _]|(c & s' & -> & Hc)];
    [done|].
  cbn. destruct (Py.rstrip s'); by rewrite ?Hc.
Qed.

Lemma blank_split s : blank s = true → Py.split "," s = [s].
Proof.
  induction s as [|c s IH]; [done|]. cbn.
  intros [Hc Hs]%andb_true_iff. rewrite IH by done.
  destruct (decide (c = ","%char)) as [->|]; done.
Qed.

Lemma parse_page_numbers_blank e n :
  Py.strip e = "" → parse_page_numbers e n = [].
Proof.
  intros He. unfold parse_page_numbers.
  rewrite decide_False by (by rewrite <-lower_strip, He).
  rewrite blank_split by by apply strip_empty_blank.
  cbn. unfold parse_part. by rewrite He.
Qed.

(** The validator accepts exactly the inputs with a selection that is
    not empty. *)
Lemma validate_page_input_cases e n :
  (parse_page_numbers e n ≠ [] ∧ validate_page_input e n = (true, ""))
  ∨ (parse_page_numbers e n = []
     ∧ ∃ err, validate_page_input e n = (false, err)
              ∧ err ∈ [empty_input_text; invalid_format_text n]).
Proof.
  unfold validate_page_input. case_decide as He.
  - right. split; [by apply parse_page_numbers_blank|].
    eexists. split; [done|]. in_list.
  - destruct (parse_page_numbers e n) eqn:Hp.
    + right. split; [done|]. eexists. split; [done|]. in_list.
    + by left.
Qed.

End delete.

(** C5: [delete_pages] writes exactly the pages whose 1-based index is not
    selected, in their original order.  [handle_delete_input] either
    rejects the input and leaves the session as it was, or stores a
    selection that is not empty and leaves at least one page; a selection
    that covers every page is always rejected.  So [execute_delete], run
    on what the handler stored, sends a document with at least one
    page. *)
Theorem delete_keeps_unselected_pages
    fs session text output_path file others reader :
  current_operation session = Some "delete" →
  current_step session = Some "waiting_pages_input" →
  current_files session = file :: others →
  fs !! path file = Some reader →
  let n := Z.of_nat (length reader) in
  let selection := parse_page_numbers (Py.strip text) n in
  (∀ pages,
     delete_pages fs (path file) pages output_path
     = (true, <[output_path := pages_not_in 1 reader pages]> fs))
  ∧ ((∀ p, 1 ≤ p ≤ n → p ∈ selection) →
     ∃ err,
       handle_delete_input fs session text = (true, session, [Reply err])
       ∧ err ∈ [empty_input_text; invalid_format_text n; delete_all_text]
       ∧ (1 ≤ n → err = delete_all_text))
  ∧ ((∃ err,
        handle_delete_input fs session text = (true, session, [Reply err])
        ∧ err ∈ [empty_input_text; invalid_format_text n; delete_all_text])
     ∨ (handle_delete_input fs session text
        = (true, set_pages_to_delete session selection,
           [Reply (delete_confirmation_text selection
                     (n - Z.of_nat (length selection)))])
        ∧ selection ≠ []
        ∧ ∃ doc,
            execute_delete fs (set_pages_to_delete session selection)
              output_path
            = (reset session,
               [Localized "messages.processing";
                Document "pages_deleted.pdf" "messages.delete_completed" doc;
                MainMenu])
            ∧ doc = pages_not_in 1 reader selection
            ∧ sublist doc reader
            ∧ (length doc + length selection)%nat = length reader
            ∧ doc ≠ [])).
Proof.
  intros Hop Hstep Hfiles Hread n selection.
  assert (∀ pages,
            delete_pages fs (path file) pages output_path
            = (true, <[output_path := pages_not_in 1 reader pages]> fs))
    as Hdelete by (intros pages; by apply delete_pages_spec).
  assert (handle_delete_input fs session text =
          let '(is_valid, error_msg) :=
            validate_page_input (Py.strip text) n in
          if negb is_valid then (true, session, [Reply error_msg])
          else if bool_decide (n ≤ Z.of_nat (length selection))
               then (true, session, [Reply delete_all_text])
               else (true, set_pages_to_delete session selection,
                     [Reply (delete_confirmation_text selection
                               (n - Z.of_nat (length selection)))]))
    as Hhandle.
  { unfold handle_delete_input. rewrite Hop, Hstep, Hfiles.
    rewrite bool_decide_eq_false_2 by (intros [?|?]; done).
    unfold get_pdf_info. by rewrite Hread. }
  pose proof (parse_page_numbers_bounds (Py.strip text) n) as Hbounds.
  pose proof (parse_page_numbers_NoDup (Py.strip text) n) as Hnodup.
  fold selection in Hbounds, Hnodup.
  split_and!; [done|..].
  - intros Hcover. rewrite Hhandle.
    destruct (validate_page_input_cases (Py.strip text) n)
      as [[Hne ->]|[Hnil (err & -> & Herr)]]; cbn.
    + rewrite bool_decide_eq_true_2.
      { eexists. split_and!; [done|in_list|done]. }
      assert (seqZ 1 n ⊆+ selection) as Hsub.
      { apply NoDup_submseteq; [apply NoDup_seqZ|].
        intros p Hp%elem_of_seqZ. apply Hcover. lia. }
      apply submseteq_length in Hsub. rewrite length_seqZ in Hsub. lia.
    + exists err. split_and!; [done|by apply list_elem_of_weaken|].
      intros Hn. specialize (Hcover 1). fold selection in Hnil.
      rewrite Hnil in Hcover. apply elem_of_nil in Hcover; [done|lia].
  - rewrite Hhandle.
    destruct (validate_page_input_cases (Py.strip text) n)
      as [[Hne ->]|[Hnil (err & -> & Herr)]]; cbn.
    + case_bool_decide as Hlen.
      { left. eexists. split; [done|in_list]. }
      right. split_and!; [done|done|].
      exists (pages_not_in 1 reader selection).
      pose proof (pages_not_in_count reader selection Hnodup Hbounds) as Hcount.
      split_and!; [|done|apply pages_not_in_sublist|done|].
      * unfold execute_delete. cbn. rewrite Hfiles.
        fold selection in Hne.
        destruct selection as [|p selection'] eqn:Hsel; [done|].
        rewrite Hdelete. by rewrite lookup_insert_eq.
      * intros Hempty. rewrite Hempty in Hcount. cbn in Hcount. lia.
    + left. exists err. split; [done|by apply list_elem_of_weaken].
Qed.

Lemma delete_keeps_unselected_pages_witness :
  delete_pages reorder_disk "/tmp/user_1_in.pdf" [2] "/tmp/user_1_out.pdf"
  = (true,
     <["/tmp/user_1_out.pdf" := pages_not_in 1 three_pages [2]]> reorder_disk).
Proof.
  apply (delete_keeps_unselected_pages reorder_disk
           (Session (Some "delete") (current_files reorder_session)
              (Some "waiting_pages_input") (TempData None None None))
           "2" "/tmp/user_1_out.pdf"
           (FileInfo "/tmp/user_1_in.pdf" "in.pdf" 2048) [] three_pages);
    reflexivity.
Defined.

(** ** Merging *)

Lemma merge_pdfs_spec fs pdf_files docs output_path :
  Forall2 (λ pdf_file doc, fs !! pdf_file = Some doc) pdf_files docs →
  merge_pdfs fs pdf_files output_path
  = (true, <[output_path := concat docs]> fs).
Proof.
  intros Hdocs. unfold merge_pdfs. by rewrite (merge_loop_spec _ _ docs).
Qed.

(** C6, as the specification states it, fails: [merge_pdfs] called with
    one readable file, or with none, succeeds and writes an output
    document. *)
Lemma merge_pdfs_single_input :
  merge_pdfs reorder_disk ["/tmp/user_1_in.pdf"] "/tmp/user_1_merged.pdf"
  = (true, <["/tmp/user_1_merged.pdf" := three_pages]> reorder_disk)
  ∧ merge_pdfs reorder_disk [] "/tmp/user_1_merged.pdf"
    = (true, <["/tmp/user_1_merged.pdf" := []]> reorder_disk).
Proof. split; reflexivity. Qed.

(** C6, amended: the check for fewer than two documents is made by the
    caller.  [execute_merge] answers with an error, sends no document and
    leaves the session as it was when fewer than two files were collected;
    [merge_pdfs] itself makes no such check and joins the pages of
    whatever readable files it is given, in order. *)
Theorem merge_needs_two_files_in_caller :
  (∀ fs session output_path,
     (length (default [] (merge_files (temp session))) < 2)%nat →
     execute_merge fs session output_path
     = (session, [Localized "messages.no_pages_selected"]))
  ∧ (∀ fs pdf_files docs output_path,
       Forall2 (λ pdf_file doc, fs !! pdf_file = Some doc) pdf_files docs →
       merge_pdfs fs pdf_files output_path
       = (true, <[output_path := concat docs]> fs)).
Proof.
  split.
  - intros fs session output_path Hfew. unfold execute_merge.
    by rewrite bool_decide_eq_true_2.
  - intros fs pdf_files docs output_path. apply merge_pdfs_spec.
Qed.

Lemma merge_needs_two_files_in_caller_witness :
  execute_merge reorder_disk
    (Session (Some "merge") (current_files reorder_session)
       (Some "collecting_files")
       (TempData None (Some (current_files reorder_session)) None))
    "/tmp/user_1_merged.pdf"
  = (Session (Some "merge") (current_files reorder_session)
       (Some "collecting_files")
       (TempData None (Some (current_files reorder_session)) None),
     [Localized "messages.no_pages_selected"]).
Proof.
  apply (proj1 merge_needs_two_files_in_caller). cbn. lia.
Defined.

(** ** Splitting into parts of equal size *)

Section split.

Lemma string_app_assoc s1 s2 s3 : (s1 +:+ s2) +:+ s3 = s1 +:+ s2 +:+ s3.
Proof.
  induction s1 as [|c s1 IH]; [done|]. by rewrite !app_cons, IH.
Qed.

Lemma string_length_app s1 s2 :
  String.length (s1 +:+ s2) = (String.length s1 + String.length s2)%nat.
Proof.
  induction s1 as [|c s1 IH]; [done|]. rewrite app_cons. cbn. by rewrite IH.
Qed.

Lemma string_app_inj_r s : Inj (=) (=) (λ s', s' +:+ s).
Proof.
  intros s1. induction s1 as [|c1 s1 IH]; intros [|c2 s2] Heq.
  - done.
  - apply (f_equal String.length) in Heq.
    rewrite !string_length_app in Heq. cbn in Heq. lia.
  - apply (f_equal String.length) in Heq.
    rewrite !string_length_app in Heq. cbn in Heq. lia.
  - rewrite !app_cons in Heq. injection Heq as -> Heq.
    f_equal. by apply IH.
Qed.

Lemma path_join_prefix dir :
  ∃ prefix, ∀ name, Py.path_join dir name = prefix +:+ name.
Proof.
  unfold Py.path_join. destruct (String.rev dir) as [|c r].
  - by exists "".
  - destruct (decide (c = "/"%char)) as [->|Hc].
    + by exists dir.
    + exists (dir +:+ "/"). intros name. rewrite string_app_assoc.
      destruct c as [[] [] [] [] [] [] [] []]; done.
Qed.

Lemma part_path_inj dir : Inj (=) (=) (part_path dir).
Proof.
  intros k1 k2. unfold part_path.
  destruct (path_join_prefix dir) as [prefix Hjoin]. rewrite !Hjoin.
  intros Heq. apply (inj (String.app prefix)), (inj (String.app "part_")) in Heq.
  apply (string_app_inj_r ".pdf") in Heq. by apply (inj pretty).
Qed.

Lemma copy_pages_spec mid : ∀ pre writer post,
  copy_pages (pre ++ mid ++ post) writer
    (seqZ (Z.of_nat (length pre)) (Z.of_nat (length mid)))
  = Some (writer ++ mid).
Proof.
  induction mid as [|p mid IH]; intros pre writer post.
  - rewrite seqZ_nil by (cbn [length]; lia). cbn. by rewrite app_nil_r.
  - rewrite page_nums_cons. cbn [copy_pages].
    rewrite <-app_comm_cons, pages_at_middle. cbn.
    rewrite (cons_middle p pre (mid ++ post)), app_assoc, IH.
    unfold add_page. by rewrite <-app_assoc.
Qed.

(** One part: the pages from [start] up to the next multiple of the
    part size, or up to the end of the document. *)
Lemma copy_pages_chunk reader size k :
  (0 < size)%nat → (k * size < length reader)%nat →
  copy_pages reader []
    (Py.range (Z.of_nat (k * size))
       (Z.min (Z.of_nat (k * size) + Z.of_nat size)
          (Z.of_nat (length reader))))
  = Some (chunk size reader k).
Proof.
  intros Hsize Hstart. unfold chunk, Py.range.
  set (start := (k * size)%nat) in *.
  set (mid := take size (drop start reader)).
  assert (length mid = size `min` (length reader - start))%nat as Hmid
    by (unfold mid; by rewrite length_take, length_drop).
  assert (reader = take start reader ++ mid ++ drop size (drop start reader))
    as Hsplit by (unfold mid; by rewrite !take_drop).
  assert (length (take start reader) = start) as Hpre
    by (rewrite length_take; lia).
  replace (Z.min (Z.of_nat start + Z.of_nat size) (Z.of_nat (length reader))
           - Z.of_nat start) with (Z.of_nat (length mid)) by lia.
  pose proof (copy_pages_spec mid (take start reader) []
                (drop size (drop start reader))) as Hcopy.
  by rewrite <-Hsplit, Hpre in Hcopy.
Qed.

Lemma chunk_S size doc k :
  chunk size doc (S k) = chunk size (drop size doc) k.
Proof.
  unfold chunk. by rewrite drop_drop.
Qed.

Lemma concat_chunks size : ∀ count doc,
  (length doc ≤ count * size)%nat →
  concat (chunk size doc <$> seq 0 count) = doc.
Proof.
  induction count as [|count IH]; intros doc Hlen.
  - destruct doc; [done|cbn in Hlen; lia].
  - rewrite <-cons_seq, <-fmap_S_seq, fmap_cons, <-list_fmap_compose.
    cbn [concat].
    rewrite (list_fmap_ext _ (chunk size (drop size doc)) (seq 0 count))
      by (intros _ k _; apply chunk_S).
    rewrite IH by (rewrite length_drop; lia).
    unfold chunk. cbn [Nat.mul drop]. apply take_drop.
Qed.

Lemma chunk_length size doc k :
  length (chunk size doc k) = (size `min` (length doc - k * size))%nat.
Proof. unfold chunk. by rewrite length_take, length_drop. Qed.

(** The loop of [split_pdf_by_range] from part [j] on: [count] more
    parts are written, each under its own path. *)
Lemma split_loop_spec reader size dir : ∀ count j outs fs,
  (0 < size)%nat →
  ((j + count) * size < length reader + size)%nat →
  split_loop reader (Z.of_nat size) dir outs fs
    ((λ k, 0 + k * Z.of_nat size)
       <$> seqZ (Z.of_nat j) (Z.of_nat count))
  = inr (outs ++ ((λ k, part_path dir (Z.of_nat k + 1)) <$> seq j count),
         foldl (λ (fs : files) k, <[part_path dir (Z.of_nat k + 1)
                                      := chunk size reader k]> fs)
           fs (seq j count)).
Proof.
  induction count as [|count IH]; intros j outs fs Hsize Hlen.
  - cbn. by rewrite app_nil_r.
  - rewrite seqZ_cons by lia.
    replace (Z.succ (Z.of_nat j)) with (Z.of_nat (S j)) by lia.
    replace (Z.pred (Z.of_nat (S count))) with (Z.of_nat count) by lia.
    rewrite fmap_cons. cbn [split_loop].
    replace (0 + Z.of_nat j * Z.of_nat size) with (Z.of_nat (j * size))
      by lia.
    rewrite copy_pages_chunk by (done || nia).
    rewrite Nat2Z.inj_mul, Z.div_mul by lia.
    rewrite IH by (done || lia).
    cbn [seq fmap list_fmap foldl]. by rewrite <-app_assoc.
Qed.

Lemma foldl_insert_lookup {A} (key : A → string) (val : A → list page)
    `{!Inj (=) (=) key} ks : ∀ (fs : files) k,
  k ∈ ks →
  foldl (λ (fs : files) k, <[key k := val k]> fs) fs ks !! key k
  = Some (val k).
Proof.
  induction ks as [|x ks IH] using rev_ind; intros fs k Hk.
  - by apply elem_of_nil in Hk.
  - rewrite foldl_snoc. destruct (decide (key x = key k)) as [Heq|Hne].
    + apply (inj key) in Heq as ->. by rewrite lookup_insert_eq.
    + rewrite lookup_insert_ne by done.
      apply IH. apply elem_of_app in Hk as [Hk|Hk]; [done|].
      apply list_elem_of_singleton in Hk. by subst.
Qed.

(** The length of [range(0, n, c)] is the quotient rounded up. *)
Lemma ceil_div_bounds n c :
  0 ≤ n → 1 ≤ c →
  let q := (n + c - 1) `div` c in 0 ≤ q ∧ n ≤ q * c < n + c.
Proof.
  intros Hn Hc q.
  pose proof (Z.div_mod (n + c - 1) c ltac:(lia)) as Hdiv.
  pose proof (Z.mod_pos_bound (n + c - 1) c ltac:(lia)) as Hmod.
  fold q in Hdiv. split; [apply Z.div_pos; lia|nia].
Qed.

End split.

(** C7: for a part size of at least 1, [split_pdf_by_range] cuts the
    pages 1 .. n into consecutive parts of that size, the last one
    possibly shorter, each written under its own path; the number of
    parts is n divided by the part size, rounded up.  Seven pages in
    parts of three give three files of 3, 3 and 1 pages. *)
Theorem split_pdf_by_range_parts :
  (∀ fs input_path pages_per_file output_dir reader,
     fs !! input_path = Some reader →
     1 ≤ pages_per_file →
     let n := Z.of_nat (length reader) in
     let result :=
       split_pdf_by_range fs input_path pages_per_file output_dir in
     ∃ parts : list (list page),
       Forall2 (λ output_path part, result.2 !! output_path = Some part)
         result.1 parts
       ∧ NoDup result.1
       ∧ concat parts = reader
       ∧ Z.of_nat (length parts)
         = (n + pages_per_file - 1) `div` pages_per_file
       ∧ n ≤ Z.of_nat (length parts) * pages_per_file < n + pages_per_file
       ∧ ∀ i part,
           parts !! i = Some part →
           if decide (S i < length parts)%nat
           then Z.of_nat (length part) = pages_per_file
           else 1 ≤ Z.of_nat (length part) ≤ pages_per_file)
  ∧ (let result :=
       split_pdf_by_range split_disk "/tmp/user_1_in.pdf" 3 "/tmp/parts" in
     result.1 = ["/tmp/parts/part_1.pdf"; "/tmp/parts/part_2.pdf";
                 "/tmp/parts/part_3.pdf"]
     ∧ (λ output_path, length <$> result.2 !! output_path) <$> result.1
       = [Some 3; Some 3; Some 1]%nat).
Proof.
  split; [|by vm_compute].
  intros fs input_path c dir reader Hread Hc n result.
  pose proof (ceil_div_bounds n c ltac:(lia) Hc) as [Hq0 Hq].
  set (q := (n + c - 1) `div` c) in *.
  set (size := Z.to_nat c). set (count := Z.to_nat q).
  assert (Z.of_nat size = c) as Hsize by lia.
  assert (Z.of_nat count = q) as Hcount by lia.
  assert (length reader ≤ count * size < length reader + size)%nat as Hnat
    by nia.
  set (key := λ k : nat, part_path dir (Z.of_nat k + 1)).
  assert (Inj (=) (=) key) as Hinj.
  { intros k1 k2 Hk. apply part_path_inj in Hk. lia. }
  assert (result =
          (key <$> seq 0 count,
           foldl (λ (fs : files) k, <[key k := chunk size reader k]> fs)
             fs (seq 0 count))) as ->.
  { unfold result, split_pdf_by_range, Py.range_step. rewrite Hread.
    rewrite decide_False by lia. rewrite decide_True by lia. fold n.
    replace (n - 0 + c - 1) with (n + c - 1) by lia. fold q.
    rewrite <-Hcount, <-Hsize.
    pose proof (split_loop_spec reader size dir count 0 [] fs) as Hloop.
    change (Z.of_nat 0) with 0 in Hloop.
    by rewrite Hloop by (cbn; lia). }
  exists (chunk size reader <$> seq 0 count). cbn [fst snd].
  split_and!.
  - apply Forall2_fmap, Forall_Forall2_diag, Forall_forall.
    intros k Hk.
    by apply (foldl_insert_lookup key (chunk size reader)).
  - apply (NoDup_fmap_2 key), NoDup_seq.
  - apply concat_chunks. lia.
  - rewrite length_fmap, length_seq. lia.
  - rewrite length_fmap, length_seq. lia.
  - rewrite length_fmap, length_seq. lia.
  - intros i part Hpart. rewrite length_fmap, length_seq.
    apply list_lookup_fmap_Some in Hpart as (k & -> & Hk).
    apply lookup_seq in Hk as [-> Hi]. cbn [Nat.add].
    rewrite chunk_length. case_decide; nia.
Qed.

Lemma split_pdf_by_range_parts_witness :
  ∃ parts : list (list page),
    concat parts = seven_pages ∧ Z.of_nat (length parts) = (7 + 3 - 1) `div` 3.
Proof.
  destruct (proj1 split_pdf_by_range_parts split_disk "/tmp/user_1_in.pdf" 3
              "/tmp/parts" seven_pages) as (parts & _ & _ & Hcat & Hlen & _).
  - reflexivity.
  - lia.
  - exists parts. split; [exact Hcat|exact Hlen].
Defined.

(** ** Rotation *)

Section rotate.

Lemma pretty_N_go_start x : ∀ s,
  numeral_start s = true → numeral_start (pretty_N_go x s) = true.
Proof.
  induction (N.lt_wf_0 x) as [x _ IH]; intros s Hs.
  destruct (decide (x = 0)%N) as [->|Hx]; [by rewrite pretty_N_go_0|].
  rewrite pretty_N_go_step by lia. apply IH; [apply N.div_lt; lia|].
  unfold pretty_N_char. by repeat case_match.
Qed.

Lemma pretty_Z_start (n : Z) : numeral_start (pretty n) = true.
Proof.
  assert (∀ x : N, numeral_start (pretty x) = true) as HN.
  { intros x. unfold pretty, pretty_N. case_decide; [done|].
    by apply pretty_N_go_start. }
  destruct n as [|x|x]; [done|apply HN|done].
Qed.

Lemma numeral_not_all s : numeral_start s = true → Py.lower s ≠ "all".
Proof.
  destruct s as [|c s]; [done|]. cbn. intros Hc [= Hl _].
  apply orb_true_iff in Hc as [Hc|Hc]; apply bool_decide_eq_true in Hc.
  - by subst.
  - destruct c as [[] [] [] [] [] [] [] []]; by destruct Hc.
Qed.

Lemma rotate_selected_ints selection page_num :
  rotate_selected (Int <$> selection) page_num
  = bool_decide (page_num + 1 ∈ selection).
Proof.
  unfold rotate_selected.
  rewrite (bool_decide_ext _ (page_num + 1 ∈ selection))
    by (rewrite list_elem_of_fmap; split;
        [by intros (? & [= ->] & ?)|eauto]).
  rewrite (bool_decide_eq_false_2 ("all" ∈ _)); [apply orb_false_r|].
  rewrite <-list_fmap_compose. intros (n & Hall & _)%list_elem_of_fmap.
  by apply (numeral_not_all _ (pretty_Z_start n)).
Qed.

Lemma rotate_selected_all pages_to_rotate page_num :
  (∃ p, p ∈ pages_to_rotate ∧ Py.lower (item_str p) = "all") →
  rotate_selected pages_to_rotate page_num = true.
Proof.
  intros (p & Hp & Hall). unfold rotate_selected.
  rewrite (bool_decide_eq_true_2 ("all" ∈ _)); [apply orb_true_r|].
  apply list_elem_of_fmap. eauto.
Qed.

Lemma rotate_loop_spec pages_to_rotate angle rest : ∀ pre writer,
  rotate_loop (pre ++ rest) pages_to_rotate angle writer
    (seqZ (Z.of_nat (length pre)) (Z.of_nat (length rest)))
  = Some (writer
            ++ rotate_from pages_to_rotate angle (Z.of_nat (length pre)) rest).
Proof.
  induction rest as [|p rest IH]; intros pre writer.
  - rewrite seqZ_nil by (cbn [length]; lia). cbn. by rewrite app_nil_r.
  - rewrite page_nums_cons. cbn [rotate_loop rotate_from].
    rewrite pages_at_middle. cbn.
    rewrite (cons_middle p pre rest), app_assoc, IH.
    unfold add_page. rewrite <-app_assoc, length_app. cbn.
    by rewrite Nat2Z.inj_add.
Qed.

Lemma rotate_pages_spec fs input_path pages_to_rotate angle output_path
    reader :
  fs !! input_path = Some reader →
  rotate_pages fs input_path pages_to_rotate angle output_path
  = (true, <[output_path := rotate_from pages_to_rotate angle 0 reader]> fs).
Proof.
  intros Hin. unfold rotate_pages, Py.range. rewrite Hin.
  replace (Z.of_nat (length reader) - 0) with (Z.of_nat (length reader))
    by lia.
  pose proof (rotate_loop_spec pages_to_rotate angle reader [] []) as Hloop.
  cbn in Hloop. change (Z.of_nat 0) with 0 in Hloop. by rewrite Hloop.
Qed.

Lemma rotate_from_length pages_to_rotate angle doc : ∀ page_num,
  length (rotate_from pages_to_rotate angle page_num doc) = length doc.
Proof. induction doc as [|p doc IH]; intros k; cbn; [done|]. by rewrite IH. Qed.

Lemma rotate_from_lookup pages_to_rotate angle doc : ∀ page_num (i : nat),
  rotate_from pages_to_rotate angle page_num doc !! i
  = (λ p, if rotate_selected pages_to_rotate (page_num + Z.of_nat i)
          then page_rotate p angle else p) <$> doc !! i.
Proof.
  induction doc as [|p doc IH]; intros k i; [done|].
  destruct i as [|i]; cbn [rotate_from lookup list_lookup].
  - cbn. by rewrite Z.add_0_r.
  - rewrite IH.
    by replace (k + 1 + Z.of_nat i) with (k + Z.of_nat (S i)) by lia.
Qed.

Lemma rotate_from_all pages_to_rotate angle doc : ∀ page_num,
  (∀ k, page_num ≤ k < page_num + Z.of_nat (length doc) →
        rotate_selected pages_to_rotate k = true) →
  rotate_from pages_to_rotate angle page_num doc
  = (λ p, page_rotate p angle) <$> doc.
Proof.
  induction doc as [|p doc IH]; intros k Hsel; [done|]. cbn.
  rewrite Hsel by (cbn; lia). f_equal. apply IH.
  intros j Hj. apply Hsel. cbn. lia.
Qed.

Lemma rotate_back r : ((r + 90) `mod` 360 + 270) `mod` 360 = r `mod` 360.
Proof.
  rewrite Z.add_mod_idemp_l by lia.
  replace (r + 90 + 270) with (r + 1 * 360) by lia.
  by rewrite Z.mod_add by lia.
Qed.

End rotate.

(** C8: [rotate_pages] turns each page whose 1-based index is in the
    selection by the angle, added to the page's rotation modulo 360, and
    copies every other page unchanged.  Turning all pages by 90 and the
    result by 270 gives back every page's content and its rotation modulo
    360, that is the page itself when its rotation was within 0 .. 359. *)
Theorem rotate_pages_adds_angle :
  (∀ fs input_path selection angle output_path reader,
     fs !! input_path = Some reader →
     ∃ doc,
       rotate_pages fs input_path (Int <$> selection) angle output_path
       = (true, <[output_path := doc]> fs)
       ∧ length doc = length reader
       ∧ ∀ (i : nat) p,
           reader !! i = Some p →
           doc !! i
           = Some (if decide (Z.of_nat i + 1 ∈ selection)
                   then Page (content p) ((rotation p + angle) `mod` 360)
                   else p))
  ∧ (∀ fs input_path first_path second_path reader,
       fs !! input_path = Some reader →
       let all_pages := Int <$> pages_upto (Z.of_nat (length reader)) in
       let fs1 := (rotate_pages fs input_path all_pages 90 first_path).2 in
       let fs2 := (rotate_pages fs1 first_path all_pages 270 second_path).2 in
       ∃ doc,
         fs2 !! second_path = Some doc
         ∧ length doc = length reader
         ∧ ∀ (i : nat) p,
             reader !! i = Some p →
             ∃ p',
               doc !! i = Some p'
               ∧ content p' = content p
               ∧ rotation p' = rotation p `mod` 360
               ∧ (0 ≤ rotation p < 360 → p' = p)).
Proof.
  split.
  - intros fs input_path selection angle output_path reader Hread.
    eexists. split_and!; [by apply rotate_pages_spec|apply rotate_from_length|].
    intros i p Hp. rewrite rotate_from_lookup, Hp. cbn.
    rewrite rotate_selected_ints, Z.add_0_l. by case_bool_decide; case_decide.
  - intros fs input_path first_path second_path reader Hread all_pages fs1 fs2.
    assert (∀ (doc : list page) angle,
              length doc = length reader →
              rotate_from all_pages angle 0 doc
              = (λ p, page_rotate p angle) <$> doc) as Hall.
    { intros doc angle Hlen. apply rotate_from_all. intros k Hk.
      unfold all_pages. rewrite rotate_selected_ints.
      apply bool_decide_eq_true. rewrite <-range_upto. unfold Py.range.
      apply elem_of_seqZ. lia. }
    set (doc1 := (λ p, page_rotate p 90) <$> reader).
    assert (fs1 = <[first_path := doc1]> fs) as Hfs1.
    { unfold fs1. rewrite (rotate_pages_spec _ _ _ _ _ reader) by done.
      cbn. by rewrite Hall. }
    assert (fs2 = <[second_path := (λ p, page_rotate p 270) <$> doc1]> fs1)
      as Hfs2.
    { unfold fs2. rewrite (rotate_pages_spec _ _ _ _ _ doc1)
        by (by rewrite Hfs1, lookup_insert_eq).
      cbn. rewrite Hall; [done|]. unfold doc1. by rewrite length_fmap. }
    eexists. split_and!.
    + by rewrite Hfs2, lookup_insert_eq.
    + unfold doc1. by rewrite !length_fmap.
    + intros i p Hp. unfold doc1. rewrite !list_lookup_fmap, Hp. cbn.
      eexists. split_and!; [done|done|apply rotate_back|].
      intros Hr. destruct p as [c r]. cbn in *. unfold page_rotate. cbn.
      f_equal. rewrite rotate_back. by apply Z.mod_small.
Qed.

Lemma rotate_pages_adds_angle_witness :
  ∃ doc,
    rotate_pages reorder_disk "/tmp/user_1_in.pdf" (Int <$> [2; 3]) 90
      "/tmp/user_1_out.pdf"
    = (true, <["/tmp/user_1_out.pdf" := doc]> reorder_disk)
    ∧ length doc = length three_pages.
Proof.
  destruct (proj1 rotate_pages_adds_angle reorder_disk "/tmp/user_1_in.pdf"
              [2; 3] 90 "/tmp/user_1_out.pdf" three_pages)
    as (doc & Hrot & Hlen & _).
  - reflexivity.
  - exists doc. split; [exact Hrot|exact Hlen].
Defined.

(** C10: when the list given to [rotate_pages] holds an element whose
    lower-cased string form is ["all"], every page of the document is
    turned by the angle, whatever page numbers the list holds. *)
Theorem rotate_pages_all_sentinel
    fs input_path pages_to_rotate angle output_path reader :
  fs !! input_path = Some reader →
  (∃ p, p ∈ pages_to_rotate ∧ Py.lower (item_str p) = "all") →
  rotate_pages fs input_path pages_to_rotate angle output_path
  = (true, <[output_path := (λ p, page_rotate p angle) <$> reader]> fs).
Proof.
  intros Hread Hall. rewrite (rotate_pages_spec _ _ _ _ _ reader) by done.
  rewrite rotate_from_all; [done|].
  intros k _. by apply rotate_selected_all.
Qed.

Lemma rotate_pages_all_sentinel_witness :
  rotate_pages reorder_disk "/tmp/user_1_in.pdf" [Int 2; Str "All"] 90
    "/tmp/user_1_out.pdf"
  = (true,
     <["/tmp/user_1_out.pdf" := (λ p, page_rotate p 90) <$> three_pages]>
       reorder_disk).
Proof.
  apply rotate_pages_all_sentinel.
  - reflexivity.
  - exists (Str "All"). split; [|reflexivity].
    apply list_elem_of_further, list_elem_of_here.
Defined.

(** * Further properties of the code *)

(** ** Reordering *)

Section reorder_pages.

Lemma pages_at_index reader k :
  1 ≤ k → pages_at reader (k - 1) = reader !! Z.to_nat (k - 1).
Proof.
  intros Hk. rewrite <-(Z2Nat.id (k - 1)) at 1 by lia. apply pages_at_nat.
Qed.

Lemma reorder_loop_spec reader order : ∀ writer,
  reorder_loop reader writer order
  = Some (writer ++ pages_in_order reader order).
Proof.
  unfold pages_in_order.
  induction order as [|k order IH]; intros writer; cbn.
  - by rewrite app_nil_r.
  - case_bool_decide as Hk.
    + rewrite decide_True by done. rewrite pages_at_index by lia.
      destruct (lookup_lt_is_Some_2 reader (Z.to_nat (k - 1)) ltac:(lia))
        as [p Hp].
      rewrite Hp. cbn. rewrite IH. unfold add_page. by rewrite <-app_assoc.
    + rewrite decide_False by done. apply IH.
Qed.

Lemma reorder_pages_spec fs input_path order output_path reader :
  fs !! input_path = Some reader →
  reorder_pages fs input_path order output_path
  = (true, <[output_path := pages_in_order reader order]> fs).
Proof.
  intros Hin. unfold reorder_pages. by rewrite Hin, reorder_loop_spec.
Qed.

Lemma pages_in_order_cons_in doc k order p :
  1 ≤ k ≤ Z.of_nat (length doc) → doc !! Z.to_nat (k - 1) = Some p →
  pages_in_order doc (k :: order) = p :: pages_in_order doc order.
Proof.
  intros Hk Hp. unfold pages_in_order. cbn.
  rewrite decide_True by done. by rewrite Hp.
Qed.

Lemma pages_in_order_cons_out doc k order :
  ¬ 1 ≤ k ≤ Z.of_nat (length doc) →
  pages_in_order doc (k :: order) = pages_in_order doc order.
Proof.
  intros Hk. unfold pages_in_order. cbn. by rewrite decide_False by done.
Qed.

Lemma pages_in_order_lookup doc order :
  Forall (λ k, 1 ≤ k ≤ Z.of_nat (length doc)) order →
  ∀ i : nat,
    pages_in_order doc order !! i
    = order !! i ≫= λ k, doc !! Z.to_nat (k - 1).
Proof.
  induction 1 as [|k order Hk _ IH]; intros i; [done|].
  destruct (lookup_lt_is_Some_2 doc (Z.to_nat (k - 1)) ltac:(lia)) as [p Hp].
  rewrite (pages_in_order_cons_in _ _ _ p) by done.
  destruct i as [|i]; cbn; [done|apply IH].
Qed.

Lemma pages_in_order_upto_from rest : ∀ pre,
  pages_in_order (pre ++ rest)
    (Z.of_nat <$> seq (S (length pre)) (length rest))
  = rest.
Proof.
  induction rest as [|p rest IH]; intros pre; [done|].
  cbn [length seq fmap list_fmap].
  rewrite (pages_in_order_cons_in _ _ _ p).
  - f_equal. specialize (IH (pre ++ [p])).
    rewrite <-app_assoc, length_app in IH. cbn in IH.
    by rewrite Nat.add_1_r in IH.
  - rewrite length_app. cbn. lia.
  - replace (Z.to_nat (Z.of_nat (S (length pre)) - 1)) with (length pre)
      by lia.
    by apply list_lookup_middle.
Qed.

Lemma pages_in_order_identity doc :
  pages_in_order doc (pages_upto (Z.of_nat (length doc))) = doc.
Proof.
  unfold pages_upto. rewrite Nat2Z.id. apply (pages_in_order_upto_from doc []).
Qed.

Lemma pages_in_order_length doc order :
  length (pages_in_order doc order)
  = length (filter (λ k, 1 ≤ k ≤ Z.of_nat (length doc)) order).
Proof.
  induction order as [|k order IH]; [done|]. rewrite filter_cons.
  case_decide as Hk.
  - destruct (lookup_lt_is_Some_2 doc (Z.to_nat (k - 1)) ltac:(lia))
      as [p Hp].
    rewrite (pages_in_order_cons_in _ _ _ p) by done. cbn. by rewrite IH.
  - by rewrite pages_in_order_cons_out.
Qed.

Lemma pages_in_order_subseteq doc order : pages_in_order doc order ⊆ doc.
Proof.
  induction order as [|k order IH]; [by intros p ?%elem_of_nil|].
  destruct (decide (1 ≤ k ≤ Z.of_nat (length doc))) as [Hk|Hk].
  - destruct (lookup_lt_is_Some_2 doc (Z.to_nat (k - 1)) ltac:(lia))
      as [p Hp].
    rewrite (pages_in_order_cons_in _ _ _ p) by done.
    intros q [->|Hq]%elem_of_cons; [by eapply list_elem_of_lookup_2|].
    by apply IH.
  - by rewrite pages_in_order_cons_out.
Qed.

Lemma pages_in_order_permutation doc order :
  order ≡ₚ pages_upto (Z.of_nat (length doc)) →
  pages_in_order doc order ≡ₚ doc
  ∧ ∀ (i : nat) k,
      order !! i = Some k →
      pages_in_order doc order !! i = doc !! Z.to_nat (k - 1).
Proof.
  intros Hperm. split.
  - rewrite <-(pages_in_order_identity doc) at 2.
    unfold pages_in_order. by rewrite Hperm.
  - intros i k Hk. rewrite pages_in_order_lookup, Hk; [done|].
    rewrite Hperm, <-range_upto. apply Forall_seqZ. lia.
Qed.

End reorder_pages.

(** X1: for an order that is a rearrangement of 1 .. n, [reorder_pages]
    writes a document of n pages whose page at position i is the input
    page named by the i-th entry of the order, and which holds the same
    pages as the input. *)
Theorem reorder_pages_permutation
    fs input_path order output_path reader :
  fs !! input_path = Some reader →
  order ≡ₚ pages_upto (Z.of_nat (length reader)) →
  ∃ doc,
    reorder_pages fs input_path order output_path
    = (true, <[output_path := doc]> fs)
    ∧ length doc = length reader
    ∧ doc ≡ₚ reader
    ∧ ∀ (i : nat) k,
        order !! i = Some k → doc !! i = reader !! Z.to_nat (k - 1).
Proof.
  intros Hin Hperm. exists (pages_in_order reader order).
  destruct (pages_in_order_permutation reader order Hperm) as [Hdoc Hi].
  split_and!; [by apply reorder_pages_spec|by rewrite Hdoc|done..].
Qed.

Lemma reorder_pages_permutation_witness :
  ∃ doc,
    reorder_pages reorder_disk "/tmp/user_1_in.pdf" [3; 1; 2]
      "/tmp/user_1_out.pdf"
    = (true, <["/tmp/user_1_out.pdf" := doc]> reorder_disk)
    ∧ length doc = length three_pages.
Proof.
  destruct (reorder_pages_permutation reorder_disk "/tmp/user_1_in.pdf"
              [3; 1; 2] "/tmp/user_1_out.pdf" three_pages)
    as (doc & Hdoc & Hlen & _).
  - reflexivity.
  - change (pages_upto (Z.of_nat (length three_pages))) with [1; 2; 3].
    apply (Permutation_cons_append [1; 2] 3).
  - exists doc. split; [exact Hdoc|exact Hlen].
Defined.

(** X2: reordering with the identity order 1, 2, .., n writes the input
    document unchanged. *)
Theorem reorder_pages_identity fs input_path output_path reader :
  fs !! input_path = Some reader →
  reorder_pages fs input_path (pages_upto (Z.of_nat (length reader)))
    output_path
  = (true, <[output_path := reader]> fs).
Proof.
  intros Hin. rewrite (reorder_pages_spec _ _ _ _ reader) by done.
  by rewrite pages_in_order_identity.
Qed.

Lemma reorder_pages_identity_witness :
  reorder_pages reorder_disk "/tmp/user_1_in.pdf"
    (pages_upto (Z.of_nat (length three_pages))) "/tmp/user_1_out.pdf"
  = (true, <["/tmp/user_1_out.pdf" := three_pages]> reorder_disk).
Proof. apply reorder_pages_identity. reflexivity. Defined.

(** X3: [reorder_pages] accepts any list of numbers for a readable file:
    entries outside 1 .. n are passed over without an error, so the
    output has as many pages as the order has entries within 1 .. n, and
    every output page is a page of the input. *)
Theorem reorder_pages_skips_out_of_range
    fs input_path order output_path reader :
  fs !! input_path = Some reader →
  ∃ doc,
    reorder_pages fs input_path order output_path
    = (true, <[output_path := doc]> fs)
    ∧ length doc
      = length (filter (λ k, 1 ≤ k ≤ Z.of_nat (length reader)) order)
    ∧ doc ⊆ reader.
Proof.
  intros Hin. exists (pages_in_order reader order).
  split_and!; [by apply reorder_pages_spec|apply pages_in_order_length|].
  apply pages_in_order_subseteq.
Qed.

Lemma reorder_pages_skips_out_of_range_witness :
  ∃ doc,
    reorder_pages reorder_disk "/tmp/user_1_in.pdf" [2; 7; 2; 0]
      "/tmp/user_1_out.pdf"
    = (true, <["/tmp/user_1_out.pdf" := doc]> reorder_disk)
    ∧ length doc = 2%nat.
Proof.
  destruct (reorder_pages_skips_out_of_range reorder_disk
              "/tmp/user_1_in.pdf" [2; 7; 2; 0] "/tmp/user_1_out.pdf"
              three_pages) as (doc & Hdoc & Hlen & _).
  - reflexivity.
  - exists doc. split; [exact Hdoc|exact Hlen].
Defined.

(** X4: when [handle_reorder_input] accepts an order, [execute_reorder]
    run on the session it leaves sends one document, which holds the
    pages of the file rearranged as the order says: its page at position
    i is the page of the file named by the i-th number entered. *)
Theorem execute_reorder_after_input
    fs session text output_path file others reader order :
  current_operation session = Some "reorder" →
  current_step session = Some "waiting_order_input" →
  current_files session = file :: others →
  fs !! path file = Some reader →
  parse_new_order (Py.strip text) (Z.of_nat (length reader)) = Order order →
  (handle_reorder_input fs session text).1
  = (true, set_new_order session order)
  ∧ ∃ doc,
      execute_reorder fs (set_new_order session order) output_path
      = (reset session,
         [Localized "messages.processing";
          Document "pages_reordered.pdf" "messages.reorder_completed" doc;
          MainMenu])
      ∧ doc ≡ₚ reader
      ∧ ∀ (i : nat) k,
          order !! i = Some k → doc !! i = reader !! Z.to_nat (k - 1).
Proof.
  intros Hop Hstep Hfiles Hread Hparse.
  pose proof Hparse as (Hm & Hlen & Hperm)%parse_new_order_spec.
  split.
  - unfold handle_reorder_input. rewrite Hop, Hstep, Hfiles.
    rewrite bool_decide_eq_false_2 by (intros [?|?]; done).
    unfold get_pdf_info. by rewrite Hread, Hparse.
  - destruct (pages_in_order_permutation reader order Hperm) as [Hp Hi].
    pose proof (reorder_pages_spec fs (path file) order output_path reader
                  Hread) as Hdoc.
    exists (pages_in_order reader order). split_and!; [|done..].
    unfold execute_reorder. cbn. rewrite Hfiles.
    destruct order as [|k order'] eqn:Horder.
    { apply Permutation_length in Hp. apply length_mapM in Hm.
      destruct (Py.split "," (Py.strip text)) eqn:Hs; [|done].
      apply Permutation_nil_l in Hperm.
      cbn in Hlen. destruct reader; [|done].
      by destruct (Py.strip text); cbn in Hs; repeat case_match. }
    rewrite Hdoc. by rewrite lookup_insert_eq.
Qed.

Lemma execute_reorder_after_input_witness :
  (handle_reorder_input reorder_disk reorder_session "3,1,2").1
  = (true, set_new_order reorder_session [3; 1; 2]).
Proof.
  apply (execute_reorder_after_input reorder_disk reorder_session "3,1,2"
           "/tmp/user_1_out.pdf"
           (FileInfo "/tmp/user_1_in.pdf" "in.pdf" 2048) [] three_pages);
    reflexivity.
Defined.

(** ** Splitting into single pages *)

Section split_pages.

Lemma page_path_inj dir : Inj (=) (=) (page_path dir).
Proof.
  intros k1 k2. unfold page_path.
  destruct (path_join_prefix dir) as [prefix Hjoin]. rewrite !Hjoin.
  intros Heq. apply (inj (String.app prefix)), (inj (String.app "page_")) in Heq.
  apply (string_app_inj_r ".pdf") in Heq. by apply (inj pretty).
Qed.

Lemma split_pages_loop_spec reader dir nums : ∀ outs (fs : files),
  split_pages_loop reader dir outs fs nums
  = inr (outs
           ++ (page_path dir
                 <$> filter (λ k, 1 ≤ k ≤ Z.of_nat (length reader)) nums),
         foldl (λ (fs : files) k,
                  <[page_path dir k := single_page reader k]> fs)
           fs (filter (λ k, 1 ≤ k ≤ Z.of_nat (length reader)) nums)).
Proof.
  induction nums as [|k nums IH]; intros outs fs; cbn [split_pages_loop].
  - cbn. by rewrite app_nil_r.
  - rewrite filter_cons. case_bool_decide as Hk.
    + rewrite decide_True by done. rewrite pages_at_index by lia.
      destruct (lookup_lt_is_Some_2 reader (Z.to_nat (k - 1)) ltac:(lia))
        as [p Hp].
      rewrite Hp, IH. cbn [fmap list_fmap foldl].
      rewrite <-app_assoc. cbn [app]. do 2 f_equal.
      replace (single_page reader k) with (add_page [] p);
        [done|unfold single_page; by rewrite Hp].
    + rewrite decide_False by done. apply IH.
Qed.

Lemma split_pdf_by_pages_spec fs input_path nums dir reader :
  fs !! input_path = Some reader →
  split_pdf_by_pages fs input_path nums dir
  = (page_path dir <$> filter (λ k, 1 ≤ k ≤ Z.of_nat (length reader)) nums,
     foldl (λ (fs : files) k, <[page_path dir k := single_page reader k]> fs)
       fs (filter (λ k, 1 ≤ k ≤ Z.of_nat (length reader)) nums)).
Proof.
  intros Hin. unfold split_pdf_by_pages.
  by rewrite Hin, split_pages_loop_spec.
Qed.

Lemma filter_all {A} (P : A → Prop) `{!∀ x, Decision (P x)} (l : list A) :
  Forall P l → filter P l = l.
Proof.
  induction 1 as [|x l Hx _ IH]; [done|].
  rewrite filter_cons, decide_True by done. by rewrite IH.
Qed.

End split_pages.

(** X5: [split_pdf_by_pages] writes one file for every entry of the list
    that lies within 1 .. n and passes over the others; the paths are
    returned in the order of the list, and the file named after page k
    holds page k alone. *)
Theorem split_pdf_by_pages_single_pages
    fs input_path page_numbers output_dir reader :
  fs !! input_path = Some reader →
  let n := Z.of_nat (length reader) in
  let result := split_pdf_by_pages fs input_path page_numbers output_dir in
  result.1 = page_path output_dir <$> filter (λ k, 1 ≤ k ≤ n) page_numbers
  ∧ ∀ k,
      k ∈ page_numbers → 1 ≤ k ≤ n →
      ∃ p,
        reader !! Z.to_nat (k - 1) = Some p
        ∧ result.2 !! page_path output_dir k = Some [p].
Proof.
  intros Hin n result. unfold result.
  rewrite (split_pdf_by_pages_spec _ _ _ _ reader) by done.
  split; [done|]. intros k Hk Hrange. cbn [snd].
  destruct (lookup_lt_is_Some_2 reader (Z.to_nat (k - 1)) ltac:(lia))
    as [p Hp].
  exists p. split; [done|].
  rewrite (foldl_insert_lookup (page_path output_dir) (single_page reader)
             (Inj0 := page_path_inj output_dir)).
  - unfold single_page. by rewrite Hp.
  - by apply list_elem_of_filter.
Qed.

Lemma split_pdf_by_pages_single_pages_witness :
  (split_pdf_by_pages reorder_disk "/tmp/user_1_in.pdf" [2; 5; 1] "/tmp/out").1
  = page_path "/tmp/out"
      <$> filter (λ k, 1 ≤ k ≤ Z.of_nat (length three_pages)) [2; 5; 1].
Proof.
  apply (split_pdf_by_pages_single_pages reorder_disk "/tmp/user_1_in.pdf"
           [2; 5; 1] "/tmp/out" three_pages).
  reflexivity.
Defined.

(** X6: for the selection that [parse_page_numbers] returns,
    [split_pdf_by_pages] writes exactly one file per selected page, under
    paths that are all different and in ascending page order, each
    holding the selected page alone. *)
Theorem split_pdf_by_pages_of_selection
    fs input_path page_input output_dir reader :
  fs !! input_path = Some reader →
  let n := Z.of_nat (length reader) in
  let selection := parse_page_numbers page_input n in
  let result := split_pdf_by_pages fs input_path selection output_dir in
  result.1 = page_path output_dir <$> selection
  ∧ NoDup result.1
  ∧ Forall2
      (λ output_path k,
         ∃ p, reader !! Z.to_nat (k - 1) = Some p
              ∧ result.2 !! output_path = Some [p])
      result.1 selection.
Proof.
  intros Hin n selection result.
  pose proof (parse_page_numbers_bounds page_input n) as Hbounds.
  pose proof (parse_page_numbers_NoDup page_input n) as Hnodup.
  fold selection in Hbounds, Hnodup.
  assert (result =
          (page_path output_dir <$> selection,
           foldl (λ (fs : files) k,
                    <[page_path output_dir k := single_page reader k]> fs)
             fs selection)) as ->.
  { unfold result. rewrite (split_pdf_by_pages_spec _ _ _ _ reader) by done.
    fold n. by rewrite filter_all. }
  cbn [fst snd]. split_and!; [done|..].
  - by apply (NoDup_fmap_2 _ (Inj0 := page_path_inj output_dir)).
  - apply Forall2_fmap_l, Forall_Forall2_diag, Forall_forall.
    intros k Hk. rewrite Forall_forall in Hbounds. specialize (Hbounds k Hk).
    destruct (lookup_lt_is_Some_2 reader (Z.to_nat (k - 1)) ltac:(lia))
      as [p Hp].
    exists p. split; [done|].
    rewrite (foldl_insert_lookup (page_path output_dir) (single_page reader)
               (Inj0 := page_path_inj output_dir)) by done.
    unfold single_page. by rewrite Hp.
Qed.

Lemma split_pdf_by_pages_of_selection_witness :
  (split_pdf_by_pages reorder_disk "/tmp/user_1_in.pdf"
     (parse_page_numbers "3,1" (Z.of_nat (length three_pages))) "/tmp/out").1
  = page_path "/tmp/out"
      <$> parse_page_numbers "3,1" (Z.of_nat (length three_pages)).
Proof.
  apply (split_pdf_by_pages_of_selection reorder_disk "/tmp/user_1_in.pdf"
           "3,1" "/tmp/out" three_pages).
  reflexivity.
Defined.

(** ** Merging and deleting together *)

Section merge_delete.

Lemma pages_not_in_ext doc sel1 sel2 : ∀ first,
  (∀ k, first ≤ k < first + Z.of_nat (length doc) → k ∈ sel1 ↔ k ∈ sel2) →
  pages_not_in first doc sel1 = pages_not_in first doc sel2.
Proof.
  induction doc as [|p doc IH]; intros first Hsame; [done|]. cbn.
  rewrite (IH (first + 1)) by (intros k Hk; apply Hsame; cbn; lia).
  pose proof (Hsame first ltac:(cbn; lia)).
  destruct (decide (first ∈ sel1)), (decide (first ∈ sel2)); tauto.
Qed.

Lemma pages_not_in_app doc1 doc2 sel : ∀ first,
  pages_not_in first (doc1 ++ doc2) sel
  = pages_not_in first doc1 sel
      ++ pages_not_in (first + Z.of_nat (length doc1)) doc2 sel.
Proof.
  induction doc1 as [|p doc1 IH]; intros first; cbn.
  - by rewrite Z.add_0_r.
  - rewrite IH.
    replace (first + 1 + Z.of_nat (length doc1))
      with (first + Z.pos (Pos.of_succ_nat (length doc1))) by lia.
    by case_decide.
Qed.

Lemma pages_not_in_all doc sel : ∀ first,
  (∀ k, first ≤ k < first + Z.of_nat (length doc) → k ∈ sel) →
  pages_not_in first doc sel = [].
Proof.
  induction doc as [|p doc IH]; intros first Hall; [done|]. cbn.
  rewrite decide_True by (apply Hall; cbn; lia).
  apply IH. intros k Hk. apply Hall. cbn. lia.
Qed.

Lemma pages_not_in_none doc sel : ∀ first,
  (∀ k, first ≤ k < first + Z.of_nat (length doc) → k ∉ sel) →
  pages_not_in first doc sel = doc.
Proof.
  induction doc as [|p doc IH]; intros first Hnone; [done|]. cbn.
  rewrite decide_False by (apply Hnone; cbn; lia).
  f_equal. apply IH. intros k Hk. apply Hnone. cbn. lia.
Qed.

Lemma merge_loop_missing fs pdf_files :
  Exists (λ pdf_file, fs !! pdf_file = None) pdf_files →
  ∀ writer, merge_loop fs writer pdf_files = None.
Proof.
  induction 1 as [pdf_file pdf_files Hnone|pdf_file pdf_files _ IH];
    intros writer; cbn.
  - by rewrite Hnone.
  - destruct (fs !! pdf_file); [apply IH|done].
Qed.

Lemma merge_loop_readable fs pdf_files :
  Forall (λ pdf_file, is_Some (fs !! pdf_file)) pdf_files →
  ∀ writer, is_Some (merge_loop fs writer pdf_files).
Proof.
  induction 1 as [|pdf_file pdf_files [doc Hdoc] _ IH]; intros writer; cbn.
  - done.
  - rewrite Hdoc. apply IH.
Qed.

End merge_delete.

(** X7: merging two files and then deleting from the result the pages
    that came from the first file gives back the second file's pages in
    their order; deleting the pages that came from the second file gives
    back the first. *)
Theorem delete_after_merge
    fs first_path second_path merged_path output_path doc1 doc2 :
  fs !! first_path = Some doc1 →
  fs !! second_path = Some doc2 →
  let n1 := Z.of_nat (length doc1) in
  let n2 := Z.of_nat (length doc2) in
  let fs1 := (merge_pdfs fs [first_path; second_path] merged_path).2 in
  fs1 !! merged_path = Some (doc1 ++ doc2)
  ∧ delete_pages fs1 merged_path (Py.range 1 (n1 + 1)) output_path
    = (true, <[output_path := doc2]> fs1)
  ∧ delete_pages fs1 merged_path (Py.range (n1 + 1) (n1 + n2 + 1))
      output_path
    = (true, <[output_path := doc1]> fs1).
Proof.
  intros H1 H2 n1 n2 fs1.
  assert (fs1 = <[merged_path := doc1 ++ doc2]> fs) as Hfs1.
  { unfold fs1. rewrite (merge_pdfs_spec _ _ [doc1; doc2]).
    - cbn. by rewrite app_nil_r.
    - by repeat constructor. }
  assert (fs1 !! merged_path = Some (doc1 ++ doc2)) as Hmerged
    by (by rewrite Hfs1, lookup_insert_eq).
  split_and!; [done|..];
    rewrite (delete_pages_spec _ _ _ _ _ Hmerged), pages_not_in_app;
    do 2 f_equal.
  - rewrite pages_not_in_all, pages_not_in_none; [done|..];
      intros k Hk; unfold Py.range; rewrite elem_of_seqZ; lia.
  - rewrite pages_not_in_none, pages_not_in_all;
      [by rewrite app_nil_r|..];
      intros k Hk; unfold Py.range; rewrite elem_of_seqZ; lia.
Qed.

Lemma delete_after_merge_witness :
  (merge_pdfs reorder_disk ["/tmp/user_1_in.pdf"; "/tmp/user_1_in.pdf"]
     "/tmp/user_1_merged.pdf").2 !! "/tmp/user_1_merged.pdf"
  = Some (three_pages ++ three_pages).
Proof.
  apply (delete_after_merge reorder_disk "/tmp/user_1_in.pdf"
           "/tmp/user_1_in.pdf" "/tmp/user_1_merged.pdf"
           "/tmp/user_1_out.pdf" three_pages three_pages);
    reflexivity.
Defined.

(** X8: [merge_pdfs] is all or nothing: it succeeds exactly when every
    input file can be read, and when one cannot it writes nothing, not
    even the pages of the files before it. *)
Theorem merge_pdfs_all_or_nothing fs pdf_files output_path :
  ((merge_pdfs fs pdf_files output_path).1 = true
   ↔ Forall (λ pdf_file, is_Some (fs !! pdf_file)) pdf_files)
  ∧ (Exists (λ pdf_file, fs !! pdf_file = None) pdf_files →
     merge_pdfs fs pdf_files output_path = (false, fs)).
Proof.
  assert (Exists (λ pdf_file, fs !! pdf_file = None) pdf_files →
          merge_pdfs fs pdf_files output_path = (false, fs)) as Hmissing.
  { intros Hex. unfold merge_pdfs. by rewrite merge_loop_missing. }
  split; [|done]. split.
  - intros Hok. apply Forall_forall. intros pdf_file Hin.
    destruct (fs !! pdf_file) eqn:Hf; [done|].
    rewrite Hmissing in Hok; [done|].
    apply Exists_exists. eauto.
  - intros Hall. unfold merge_pdfs.
    by destruct (merge_loop_readable fs pdf_files Hall []) as [writer ->].
Qed.

Lemma merge_pdfs_all_or_nothing_witness :
  merge_pdfs reorder_disk ["/tmp/user_1_in.pdf"; "/tmp/user_1_gone.pdf"]
    "/tmp/user_1_merged.pdf"
  = (false, reorder_disk).
Proof.
  apply merge_pdfs_all_or_nothing.
  apply Exists_cons_tl, Exists_cons_hd. reflexivity.
Defined.

(** X9: what [delete_pages] writes depends only on which indices within
    1 .. n the list holds: the order of the list, repeated entries and
    entries outside 1 .. n make no difference. *)
Theorem delete_pages_selection_as_set
    fs input_path selection1 selection2 output_path reader :
  fs !! input_path = Some reader →
  (∀ k, 1 ≤ k ≤ Z.of_nat (length reader) →
        k ∈ selection1 ↔ k ∈ selection2) →
  delete_pages fs input_path selection1 output_path
  = delete_pages fs input_path selection2 output_path.
Proof.
  intros Hin Hsame.
  rewrite !(delete_pages_spec _ _ _ _ reader) by done.
  do 2 f_equal. apply pages_not_in_ext. intros k Hk. apply Hsame. lia.
Qed.

Lemma delete_pages_selection_as_set_witness :
  delete_pages reorder_disk "/tmp/user_1_in.pdf" [3; 1; 3; 9]
    "/tmp/user_1_out.pdf"
  = delete_pages reorder_disk "/tmp/user_1_in.pdf" [1; 3]
      "/tmp/user_1_out.pdf".
Proof.
  apply (delete_pages_selection_as_set _ _ _ _ _ three_pages).
  - reflexivity.
  - intros k Hk. rewrite !elem_of_cons, !elem_of_nil.
    change (Z.of_nat (length three_pages)) with 3 in Hk. lia.
Defined.

(** X10: [validate_page_input] accepts an input exactly when
    [parse_page_numbers] returns a selection that is not empty, so a
    handler that parses after a successful validation never gets the
    empty list; a rejection carries one of the two error texts. *)
Theorem validate_page_input_iff_selected e n :
  (validate_page_input e n = (true, "") ↔ parse_page_numbers e n ≠ [])
  ∧ ((validate_page_input e n).1 = false ↔ parse_page_numbers e n = [])
  ∧ ((validate_page_input e n).1 = false →
     (validate_page_input e n).2
     ∈ [empty_input_text; invalid_format_text n]).
Proof.
  destruct (validate_page_input_cases e n)
    as [[Hne ->]|[Hnil (err & -> & Herr)]]; cbn.
  - split_and!; [done|split; done|done].
  - rewrite Hnil. split_and!; [split; done|done|done].
Qed.

(** ** The selection as a set of token contributions *)

Section tokens.

Lemma parse_part_token n pages part :
  parse_part n pages part = (λ c, pages ++ c) <$> token_pages n part.
Proof.
  unfold token_pages, parse_part.
  destruct (Py.contains "-" (Py.strip part)).
  - destruct (Py.split1 "-" (Py.strip part)) as [|a [|b [|c l]]]; try done.
    destruct (Py.int (Py.strip a)) as [x|]; [|done].
    destruct (Py.int (Py.strip b)) as [y|]; [|done]. cbn.
    case_bool_decide; cbn; [done|by rewrite app_nil_r].
  - destruct (Py.int (Py.strip part)) as [x|]; [|done]. cbn.
    case_bool_decide; cbn; [done|by rewrite app_nil_r].
Qed.

Lemma parse_parts_elem n parts : ∀ pages l x,
  parse_parts n pages parts = Some l →
  x ∈ l ↔
  x ∈ pages
  ∨ ∃ part c, part ∈ parts ∧ token_pages n part = Some c ∧ x ∈ c.
Proof.
  induction parts as [|part parts IH]; intros pages l x Hl; cbn in Hl.
  - simplify_eq. split; [by left|].
    intros [?|(? & ? & []%elem_of_nil & _)]; done.
  - rewrite parse_part_token in Hl.
    destruct (token_pages n part) as [c|] eqn:Hc; [|done]. cbn in Hl.
    rewrite (IH _ _ _ Hl), elem_of_app. split.
    + intros [[?|?]|(part' & c' & Hin & Hc' & Hx)]; [by left|..].
      * right. exists part, c. split_and!; [apply list_elem_of_here|done..].
      * right. exists part', c'.
        split_and!; [by apply list_elem_of_further|done..].
    + intros [?|(part' & c' & Hin & Hc' & Hx)]; [by left; left|].
      apply elem_of_cons in Hin as [->|Hin].
      * left; right. by simplify_eq.
      * right. eauto.
Qed.

Lemma parse_parts_None n parts pages :
  parse_parts n pages parts = None ↔
  Exists (λ part, valid_token part = false) parts.
Proof.
  split; [|apply parse_parts_invalid].
  intros Hnone. destruct (decide (Forall (λ part, valid_token part = true) parts))
    as [Hall|Hex].
  - by rewrite parse_parts_valid in Hnone.
  - apply not_Forall_Exists in Hex; [|apply _].
    eapply Exists_impl; [done|]. intros part Hp. cbn in Hp.
    by destruct (valid_token part).
Qed.

Lemma sorted_set_ext l1 l2 :
  (∀ x, x ∈ l1 ↔ x ∈ l2) → Py.sorted_set l1 = Py.sorted_set l2.
Proof.
  intros Hsame. unfold Py.sorted_set. do 2 f_equal.
  apply set_eq. intros x. by rewrite !elem_of_list_to_set.
Qed.

End tokens.

(** ** The selector on expressions with a token that does not parse *)

Section token_meaning.


End token_meaning.



(** X11: the selection depends only on which tokens the expression
    holds: writing the tokens in another order, or repeating some, gives
    the same result. *)
Theorem parse_page_numbers_tokens_as_set e1 e2 n :
  Py.strip (Py.lower e1) ≠ "all" →
  Py.strip (Py.lower e2) ≠ "all" →
  (∀ part, part ∈ Py.split "," e1 ↔ part ∈ Py.split "," e2) →
  parse_page_numbers e1 n = parse_page_numbers e2 n.
Proof.
  intros H1 H2 Hsame. unfold parse_page_numbers.
  rewrite !decide_False by done.
  destruct (parse_parts n [] (Py.split "," e1)) as [l1|] eqn:Hl1,
           (parse_parts n [] (Py.split "," e2)) as [l2|] eqn:Hl2.
  - apply sorted_set_ext. intros x.
    rewrite (parse_parts_elem _ _ _ _ x Hl1), (parse_parts_elem _ _ _ _ x Hl2).
    by setoid_rewrite Hsame.
  - apply parse_parts_None, Exists_exists in Hl2 as (part & Hin & Hbad).
    assert (parse_parts n [] (Py.split "," e1) = None) as Hnone.
    { apply parse_parts_None, Exists_exists. exists part.
      by rewrite Hsame. }
    congruence.
  - apply parse_parts_None, Exists_exists in Hl1 as (part & Hin & Hbad).
    assert (parse_parts n [] (Py.split "," e2) = None) as Hnone.
    { apply parse_parts_None, Exists_exists. exists part.
      by rewrite <-Hsame. }
    congruence.
  - done.
Qed.

Lemma parse_page_numbers_tokens_as_set_witness :
  parse_page_numbers "4,1-2,4" 5 = parse_page_numbers "1-2,4" 5.
Proof.
  apply parse_page_numbers_tokens_as_set.
  - vm_compute. discriminate.
  - vm_compute. discriminate.
  - intros part.
    change (Py.split "," "4,1-2,4") with ["4"; "1-2"; "4"].
    change (Py.split "," "1-2,4") with ["1-2"; "4"].
    rewrite !elem_of_cons, !elem_of_nil. tauto.
Defined.

(** ** Part sizes *)

Section part_sizes.

Lemma split_pdf_by_range_outputs fs input_path c dir reader :
  fs !! input_path = Some reader →
  1 ≤ c →
  (split_pdf_by_range fs input_path c dir).1
  = (λ k : nat, part_path dir (Z.of_nat k + 1))
      <$> seq 0 (Z.to_nat ((Z.of_nat (length reader) + c - 1) `div` c)).
Proof.
  intros Hread Hc.
  pose proof (ceil_div_bounds (Z.of_nat (length reader)) c ltac:(lia) Hc)
    as [Hq0 Hq].
  set (q := (Z.of_nat (length reader) + c - 1) `div` c) in *.
  set (size := Z.to_nat c). set (count := Z.to_nat q).
  assert (Z.of_nat size = c) as Hsize by lia.
  assert (Z.of_nat count = q) as Hcount by lia.
  unfold split_pdf_by_range, Py.range_step. rewrite Hread.
  rewrite decide_False by lia. rewrite decide_True by lia.
  replace (Z.of_nat (length reader) - 0 + c - 1)
    with (Z.of_nat (length reader) + c - 1) by lia.
  fold q. rewrite <-Hcount, <-Hsize.
  pose proof (split_loop_spec reader size dir count 0 [] fs) as Hloop.
  change (Z.of_nat 0) with 0 in Hloop.
  by rewrite Hloop by (cbn; nia).
Qed.

End part_sizes.

(** X12: with a part size of zero or less [split_pdf_by_range] returns
    no path and leaves the disk as it was, whether the input can be read
    or not. *)
Theorem split_pdf_by_range_bad_size fs input_path pages_per_file output_dir :
  pages_per_file ≤ 0 →
  split_pdf_by_range fs input_path pages_per_file output_dir = ([], fs).
Proof.
  intros Hc. unfold split_pdf_by_range, Py.range_step.
  destruct (fs !! input_path) as [reader|]; [|done].
  case_decide; [done|]. rewrite decide_False by lia.
  rewrite seqZ_nil; [done|].
  apply Z.le_trans with ((- pages_per_file - 1) `div` (- pages_per_file)).
  - apply Z.div_le_mono; lia.
  - rewrite Z.div_small; lia.
Qed.

Lemma split_pdf_by_range_bad_size_witness :
  split_pdf_by_range split_disk "/tmp/user_1_in.pdf" (-2) "/tmp/parts"
  = ([], split_disk).
Proof. apply split_pdf_by_range_bad_size. lia. Defined.

(** X13: [handle_split_input] accepts a part size exactly when the input
    is an integer literal between 1 and the page count.  The number of
    files it announces is the number of files [split_pdf_by_range] then
    writes, and that number is at least 1. *)
Theorem handle_split_input_announces_count
    fs input_path user_input output_dir reader :
  fs !! input_path = Some reader →
  let n := Z.of_nat (length reader) in
  (∀ pages_per_file num_files,
     parse_pages_per_file user_input n = Some (pages_per_file, num_files) →
     Py.int user_input = Some pages_per_file
     ∧ 1 ≤ pages_per_file ≤ n
     ∧ 1 ≤ num_files
     ∧ Z.of_nat
         (length (split_pdf_by_range fs input_path pages_per_file
                    output_dir).1)
       = num_files)
  ∧ (parse_pages_per_file user_input n = None ↔
     ∀ pages_per_file,
       Py.int user_input = Some pages_per_file →
       pages_per_file ≤ 0 ∨ n < pages_per_file).
Proof.
  intros Hread n. unfold parse_pages_per_file.
  destruct (Py.int user_input) as [c|]; cbn.
  - case_bool_decide as Hc.
    + split; [done|]. split; [|done]. by intros _ ? [= <-].
    + split.
      * intros ? ? [= <- <-].
        pose proof (ceil_div_bounds n c ltac:(lia) ltac:(lia)) as [Hq0 Hq].
        cbn in Hq.
        rewrite (split_pdf_by_range_outputs _ _ _ _ reader) by (done || lia).
        rewrite length_fmap, length_seq. fold n.
        split_and!; [done|lia|lia|nia|lia].
      * split; [done|]. intros Hall. destruct Hc. by apply Hall.
  - split; [done|]. split; done.
Qed.

Lemma handle_split_input_announces_count_witness :
  Py.int "3" = Some 3
  ∧ 1 ≤ 3 ≤ Z.of_nat (length seven_pages)
  ∧ 1 ≤ 3
  ∧ Z.of_nat
      (length (split_pdf_by_range split_disk "/tmp/user_1_in.pdf" 3
                 "/tmp/parts").1)
    = 3.
Proof.
  apply (proj1 (handle_split_input_announces_count split_disk
                  "/tmp/user_1_in.pdf" "3" "/tmp/parts" seven_pages
                  eq_refl)).
  reflexivity.
Defined.

(** ** Rotation: what is left alone *)

Section rotate_more.

Lemma rotate_from_none pages_to_rotate angle doc : ∀ page_num,
  (∀ k, page_num ≤ k < page_num + Z.of_nat (length doc) →
        rotate_selected pages_to_rotate k = false) →
  rotate_from pages_to_rotate angle page_num doc = doc.
Proof.
  induction doc as [|p doc IH]; intros k Hsel; [done|]. cbn.
  rewrite Hsel by (cbn; lia). f_equal. apply IH.
  intros j Hj. apply Hsel. cbn. lia.
Qed.

End rotate_more.

(** X14: page numbers outside 1 .. n in the list given to [rotate_pages]
    are ignored: when the list holds no number within 1 .. n, as the
    empty list does, the output is the input document unchanged. *)
Theorem rotate_pages_nothing_selected
    fs input_path selection angle output_path reader :
  fs !! input_path = Some reader →
  (∀ k, k ∈ selection → ¬ 1 ≤ k ≤ Z.of_nat (length reader)) →
  rotate_pages fs input_path (Int <$> selection) angle output_path
  = (true, <[output_path := reader]> fs).
Proof.
  intros Hin Hout. rewrite (rotate_pages_spec _ _ _ _ _ reader) by done.
  rewrite rotate_from_none; [done|].
  intros k Hk. rewrite rotate_selected_ints.
  apply bool_decide_eq_false. intros Hsel. apply (Hout _ Hsel). lia.
Qed.

Lemma rotate_pages_nothing_selected_witness :
  rotate_pages reorder_disk "/tmp/user_1_in.pdf" (Int <$> [0; 4]) 90
    "/tmp/user_1_out.pdf"
  = (true, <["/tmp/user_1_out.pdf" := three_pages]> reorder_disk).
Proof.
  apply rotate_pages_nothing_selected.
  - reflexivity.
  - intros k. rewrite !elem_of_cons, elem_of_nil.
    change (Z.of_nat (length three_pages)) with 3. lia.
Defined.

(** X15: the list that [handle_rotate_input] stores is always the
    selection [parse_page_numbers] gives for the input, so it holds page
    numbers within 1 .. n in ascending order and never the string all.
    It is empty only for the keyword [all] on a file without pages; every
    other input with an empty selection is answered with an error
    text. *)
Theorem rotate_input_pages_selection user_input n :
  (∀ pages,
     rotate_input_pages user_input n = inr pages →
     pages = parse_page_numbers user_input n
     ∧ (pages = [] → Py.lower user_input = "all" ∧ n ≤ 0))
  ∧ (∀ err,
       rotate_input_pages user_input n = inl err →
       parse_page_numbers user_input n = []
       ∧ err ∈ [empty_input_text; invalid_format_text n]).
Proof.
  unfold rotate_input_pages. case_decide as Hall.
  - assert (parse_page_numbers user_input n = Py.range 1 (n + 1)) as Hp.
    { unfold parse_page_numbers. rewrite decide_True; [done|].
      by rewrite Hall. }
    split; [|done]. intros pages [= <-]. split; [done|].
    intros Hnil. split; [done|].
    destruct (decide (n ≤ 0)) as [|Hn]; [done|].
    unfold Py.range in Hnil. rewrite seqZ_cons in Hnil by lia. done.
  - destruct (validate_page_input_cases user_input n)
      as [[Hne ->]|[Hnil (err & -> & Herr)]]; cbn.
    + split; [|done]. by intros pages [= <-].
    + split; [done|]. by intros ? [= <-].
Qed.

(** ** Reading back the pages that a confirmation shows *)

Section numerals.

Lemma digit_char (d : N) :
  (d < 10)%N → Py.digit (pretty_N_char d) = Some (Z.of_N d).
Proof.
  intros Hd.
  assert (d = 0 ∨ d = 1 ∨ d = 2 ∨ d = 3 ∨ d = 4 ∨ d = 5 ∨ d = 6 ∨ d = 7
          ∨ d = 8 ∨ d = 9)%N as Hcases by lia.
  repeat destruct Hcases as [->|Hcases]; try subst d; reflexivity.
Qed.

Lemma digit_not_space c : is_Some (Py.digit c) → Py.isspace c = false.
Proof. destruct c as [[] [] [] [] [] [] [] []]; (done || by intros [? ?]). Qed.

Lemma digit_not_sep c sep :
  is_Some (Py.digit c) → Py.digit sep = None → c ≠ sep.
Proof. intros [d Hd] Hsep ->. congruence. Qed.

Lemma pretty_N_go_digits x : ∀ s,
  digits s = true → digits (pretty_N_go x s) = true.
Proof.
  induction (N.lt_wf_0 x) as [x _ IH]; intros s Hs.
  destruct (decide (x = 0)%N) as [->|Hx]; [by rewrite pretty_N_go_0|].
  rewrite pretty_N_go_step by lia. apply IH; [apply N.div_lt; lia|].
  cbn. rewrite Hs, andb_true_r. apply bool_decide_eq_true.
  rewrite digit_char; [done|]. apply N.mod_lt. lia.
Qed.

Lemma int_digits_pretty x : ∀ s b,
  (0 < x)%N →
  Py.int_digits 0 b (pretty_N_go x s) = Py.int_digits (Z.of_N x) true s.
Proof.
  induction (N.lt_wf_0 x) as [x _ IH]; intros s b Hx.
  rewrite pretty_N_go_step by done.
  assert (x `mod` 10 < 10)%N as Hmod by (apply N.mod_lt; lia).
  pose proof (N.div_mod x 10 ltac:(lia)) as Hdiv.
  destruct (decide (x `div` 10 = 0)%N) as [Hzero|Hpos].
  - rewrite Hzero, pretty_N_go_0. cbn. rewrite digit_char by done.
    f_equal. lia.
  - rewrite IH by (try apply N.div_lt; lia). cbn.
    rewrite digit_char by done. f_equal. lia.
Qed.

(** The numeral of a page number: digits only, and at least one. *)
Lemma pretty_page_number (k : Z) :
  1 ≤ k →
  ∃ c s, pretty k = String c s
         ∧ digits (String c s) = true
         ∧ Py.int_digits 0 false (String c s) = Some k.
Proof.
  intros Hk. destruct k as [|p|p]; [lia| |lia].
  change (pretty (Z.pos p)) with (pretty_N_go (N.pos p) "").
  pose proof (pretty_N_go_digits (N.pos p) "" eq_refl) as Hd.
  pose proof (int_digits_pretty (N.pos p) "" false ltac:(lia)) as Hi.
  destruct (pretty_N_go (N.pos p) "") as [|c s]; [done|].
  exists c, s. split_and!; [done|done|]. rewrite Hi. done.
Qed.

Lemma digits_lstrip s : digits s = true → Py.lstrip s = s.
Proof.
  destruct s as [|c s]; [done|]. cbn.
  intros [Hc%bool_decide_eq_true _]%andb_true_iff.
  by rewrite digit_not_space.
Qed.

Lemma digits_rstrip s : digits s = true → Py.rstrip s = s.
Proof.
  induction s as [|c s IH]; [done|]. cbn.
  intros [Hc%bool_decide_eq_true Hs]%andb_true_iff.
  rewrite IH by done. destruct s; [|done]. by rewrite digit_not_space.
Qed.

Lemma digits_strip s : digits s = true → Py.strip s = s.
Proof.
  intros Hs. unfold Py.strip. by rewrite digits_lstrip, digits_rstrip.
Qed.

Lemma digits_contains sep s :
  Py.digit sep = None → digits s = true → Py.contains sep s = false.
Proof.
  intros Hsep. induction s as [|c s IH]; [done|]. cbn.
  intros [Hc%bool_decide_eq_true Hs]%andb_true_iff.
  rewrite decide_False by by apply digit_not_sep. by apply IH.
Qed.

Lemma int_digits_only c s k :
  digits (String c s) = true →
  Py.int_digits 0 false (String c s) = Some k →
  Py.int (String c s) = Some k.
Proof.
  intros Hd Hi. unfold Py.int. rewrite digits_strip by done.
  cbn in Hd. apply andb_true_iff in Hd as [Hc%bool_decide_eq_true _].
  destruct c as [[] [] [] [] [] [] [] []]; (done || by destruct Hc).
Qed.

(** One token of the text that [show_pages] builds, with or without the
    space after the comma, is read as its page number. *)
Lemma parse_part_shown n pages (k : Z) (space : bool) :
  1 ≤ k ≤ n →
  parse_part n pages ((if space then " " else "") +:+ pretty k)
  = Some (pages ++ [k]).
Proof.
  intros Hk. destruct (pretty_page_number k ltac:(lia)) as (c & s & -> & Hd & Hi).
  assert (Py.strip ((if space then " " else "") +:+ String c s) = String c s)
    as Hstrip.
  { destruct space; [|by apply digits_strip].
    unfold Py.strip. change (Py.lstrip (" " +:+ String c s))
      with (Py.lstrip (String c s)).
    by rewrite digits_lstrip, digits_rstrip. }
  unfold parse_part. rewrite Hstrip.
  rewrite digits_contains by done.
  rewrite (int_digits_only c s k) by done. cbn.
  by rewrite bool_decide_eq_true_2.
Qed.

Lemma split_no_comma s : Py.contains "," s = false → Py.split "," s = [s].
Proof.
  induction s as [|c s IH]; [done|]. cbn.
  destruct (decide (c = ","%char)); [done|]. intros Hs. by rewrite IH.
Qed.

Lemma split_at_comma s rest :
  Py.contains "," s = false →
  Py.split "," (s +:+ "," +:+ rest) = s :: Py.split "," rest.
Proof.
  induction s as [|c s IH]; [done|]. rewrite app_cons. cbn.
  destruct (decide (c = ","%char)); [done|]. intros Hs. by rewrite IH.
Qed.

Lemma contains_app sep s1 s2 :
  Py.contains sep (s1 +:+ s2) = Py.contains sep s1 || Py.contains sep s2.
Proof.
  induction s1 as [|c s1 IH]; [done|]. rewrite app_cons. cbn.
  by destruct (decide (c = sep)).
Qed.

Lemma pretty_page_no_comma (k : Z) (space : bool) :
  1 ≤ k →
  Py.contains "," ((if space then " " else "") +:+ pretty k) = false.
Proof.
  intros Hk. destruct (pretty_page_number k Hk) as (c & s & -> & Hd & _).
  rewrite contains_app, (digits_contains "," (String c s)) by done.
  by destruct space.
Qed.

Lemma split_shown (k : Z) ks : ∀ space : bool,
  Forall (λ k, 1 ≤ k) (k :: ks) →
  Py.split ","
    ((if space then " " else "") +:+ Py.join ", " (pretty <$> k :: ks))
  = ((if space then " " else "") +:+ pretty k)
      :: ((λ k, " " +:+ pretty k) <$> ks).
Proof.
  revert k. induction ks as [|k' ks IH]; intros k space Hpos.
  - apply split_no_comma, pretty_page_no_comma. by inversion Hpos.
  - inversion Hpos as [|? ? Hk Hks]; subst.
    change (Py.join ", " (pretty <$> k :: k' :: ks))
      with (pretty k +:+ ", " +:+ Py.join ", " (pretty <$> k' :: ks)).
    rewrite <-string_app_assoc.
    change (", " +:+ Py.join ", " (pretty <$> k' :: ks))
      with ("," +:+ " " +:+ Py.join ", " (pretty <$> k' :: ks)).
    rewrite split_at_comma by by apply pretty_page_no_comma.
    by rewrite (IH k' true Hks).
Qed.

Lemma parse_parts_shown n ks : ∀ pages,
  Forall (λ k, 1 ≤ k ≤ n) ks →
  parse_parts n pages ((λ k, " " +:+ pretty k) <$> ks) = Some (pages ++ ks).
Proof.
  induction ks as [|k ks IH]; intros pages Hks; cbn.
  - by rewrite app_nil_r.
  - inversion Hks; subst.
    rewrite (parse_part_shown n pages k true) by done. cbn.
    rewrite IH by done. by rewrite <-app_assoc.
Qed.

Lemma sorted_set_of_sorted l : StronglySorted Z.lt l → Py.sorted_set l = l.
Proof.
  intros Hl.
  assert (NoDup l) as Hnd.
  { induction Hl as [|x l _ IH Hx]; constructor; [|done].
    intros Hin. rewrite Forall_forall in Hx. specialize (Hx x Hin). lia. }
  apply (StronglySorted_unique Z.le).
  - unfold Py.sorted_set. apply (StronglySorted_merge_sort _).
  - clear Hnd. induction Hl as [|x l _ IH Hx]; constructor; [done|].
    eapply Forall_impl; [exact Hx|]. intros y Hy. cbn in Hy. lia.
  - unfold Py.sorted_set.
    by rewrite merge_sort_Permutation, elements_list_to_set.
Qed.

Lemma shown_not_all (k : Z) ks :
  1 ≤ k → Py.strip (Py.lower (Py.join ", " (pretty <$> k :: ks))) ≠ "all".
Proof.
  intros Hk. destruct (pretty_page_number k Hk) as (c & s & Heq & Hd & _).
  assert (∃ rest, Py.join ", " (pretty <$> k :: ks) = String c rest)
    as [rest ->].
  { destruct ks; cbn; rewrite Heq; [eauto|].
    rewrite app_cons. eauto. }
  cbn in Hd. apply andb_true_iff in Hd as [Hc%bool_decide_eq_true _].
  pose proof (digit_not_space c Hc) as Hsp.
  unfold Py.strip. cbn. rewrite isspace_lower_char, Hsp. cbn.
  intros Hall.
  destruct (Py.rstrip (Py.lower rest));
    [rewrite isspace_lower_char, Hsp in Hall|];
    injection Hall as Hall _;
    destruct c as [[] [] [] [] [] [] [] []]; (done || by destruct Hc).
Qed.

End numerals.

(** X16: the page list that a confirmation message shows reads back as
    the same selection: for page numbers within 1 .. n in ascending order,
    [parse_page_numbers] applied to the numbers joined by comma and space
    returns them; so parsing what was shown for a parsed selection
    changes nothing. *)
Theorem parse_page_numbers_shown :
  (∀ pages n,
     StronglySorted Z.lt pages →
     Forall (λ k, 1 ≤ k ≤ n) pages →
     parse_page_numbers (show_pages pages) n = pages)
  ∧ (∀ e n,
       parse_page_numbers (show_pages (parse_page_numbers e n)) n
       = parse_page_numbers e n).
Proof.
  assert (∀ pages n,
            StronglySorted Z.lt pages →
            Forall (λ k, 1 ≤ k ≤ n) pages →
            parse_page_numbers (show_pages pages) n = pages) as Hshown.
  { intros pages n Hsorted Hrange. destruct pages as [|k ks]; [done|].
    inversion Hrange as [|? ? Hk Hks]; subst.
    unfold parse_page_numbers, show_pages.
    rewrite decide_False by (apply shown_not_all; lia).
    pose proof (split_shown k ks false) as Hsplit.
    rewrite !app_empty in Hsplit. rewrite Hsplit
      by (eapply Forall_impl; [exact Hrange|]; intros; cbn in *; lia).
    cbn [parse_parts].
    pose proof (parse_part_shown n [] k false Hk) as Hpart.
    rewrite app_empty in Hpart. rewrite Hpart. cbn.
    rewrite parse_parts_shown by done. cbn.
    by apply sorted_set_of_sorted. }
  split; [done|]. intros e n.
  apply Hshown; [apply parse_page_numbers_sorted|apply parse_page_numbers_bounds].
Qed.

Lemma parse_page_numbers_shown_witness :
  parse_page_numbers (show_pages [2; 5; 11]) 12 = [2; 5; 11].
Proof.
  apply (proj1 parse_page_numbers_shown).
  - repeat (constructor; [|repeat constructor; lia]). constructor.
  - repeat (constructor; [lia|]). constructor.
Defined.

(** ** Names of temporary files *)

Section sanitize.

Lemma contains_replace1_removed old new s :
  Py.contains old new = false →
  Py.contains old (PyPath.replace1 old new s) = false.
Proof.
  intros Hnew. induction s as [|c s IH]; [done|]. cbn.
  destruct (decide (c = old)) as [->|Hc].
  - by rewrite contains_app, Hnew, IH.
  - cbn. by rewrite decide_False.
Qed.

Lemma contains_replace1_kept d old new s :
  Py.contains d new = false →
  Py.contains d s = false →
  Py.contains d (PyPath.replace1 old new s) = false.
Proof.
  intros Hnew. induction s as [|c s IH]; [done|]. cbn.
  destruct (decide (c = d)) as [->|Hc]; [done|]. intros Hs.
  destruct (decide (c = old)).
  - by rewrite contains_app, Hnew, IH.
  - cbn. rewrite decide_False by done. by apply IH.
Qed.

Lemma replace2_cons old1 old2 new c c' s :
  PyPath.replace2 old1 old2 new (String c (String c' s))
  = if decide (c = old1 ∧ c' = old2)
    then new +:+ PyPath.replace2 old1 old2 new s
    else String c (PyPath.replace2 old1 old2 new (String c' s)).
Proof. reflexivity. Qed.

Lemma contains_replace2_kept d old1 old2 new :
  Py.contains d new = false →
  ∀ (n : nat) s,
    (String.length s ≤ n)%nat →
    Py.contains d s = false →
    Py.contains d (PyPath.replace2 old1 old2 new s) = false.
Proof.
  intros Hnew n. induction n as [n IH] using lt_wf_ind.
  intros [|c [|c' s]] Hlen Hs; [done|exact Hs|].
  cbn in Hs. destruct (decide (c = d)) as [|Hc]; [done|].
  destruct (decide (c' = d)) as [|Hc']; [done|].
  rewrite replace2_cons. cbn in Hlen. case_decide.
  - rewrite contains_app, Hnew.
    apply (IH (String.length s)); [lia|done|done].
  - cbn [Py.contains]. rewrite decide_False by done.
    apply (IH (S (String.length s))); [lia|done|].
    cbn. by rewrite decide_False.
Qed.

Lemma contains_take d n : ∀ s,
  Py.contains d s = false → Py.contains d (PyPath.take n s) = false.
Proof.
  induction n as [|n IH]; intros [|c s]; cbn; try done.
  destruct (decide (c = d)); [done|]. apply IH.
Qed.

Lemma contains_drop d n : ∀ s,
  Py.contains d s = false → Py.contains d (PyPath.drop n s) = false.
Proof.
  induction n as [|n IH]; intros [|c s]; cbn; try done.
  destruct (decide (c = d)); [done|]. apply IH.
Qed.

Lemma contains_splitext d p :
  Py.contains d p = false →
  Py.contains d (PyPath.splitext p).1 = false
  ∧ Py.contains d (PyPath.splitext p).2 = false.
Proof.
  intros Hp. unfold PyPath.splitext.
  repeat case_match; cbn [fst snd];
    auto using contains_take, contains_drop.
Qed.

Lemma contains_pretty_Z d (z : Z) :
  Py.digit d = None → d ≠ "-"%char → Py.contains d (pretty z) = false.
Proof.
  intros Hd Hdash.
  assert (∀ p, Py.contains d (pretty (N.pos p)) = false) as Hpos.
  { intros p. apply digits_contains; [done|].
    by apply (pretty_N_go_digits (N.pos p) ""). }
  destruct z as [|p|p]; [|apply Hpos|].
  - cbn. by destruct (decide ("0"%char = d)) as [<-|].
  - change (pretty (Z.neg p)) with ("-" +:+ pretty (N.pos p)).
    rewrite contains_app, Hpos. cbn. by rewrite decide_False.
Qed.

(** The replacements of [sanitize_filename], before the cut. *)
Lemma replaced_free d filename :
  d ∈ ["/"; "\"; ":"; "*"; "?"; quote_char; "<"; ">"; "|"]%char →
  Py.contains d
    (foldl (λ safe_name char, PyPath.replace char "_" safe_name)
       filename dangerous_chars) = false.
Proof.
  intros Hd. cbn [foldl dangerous_chars PyPath.replace].
  repeat (apply elem_of_cons in Hd as [->|Hd]);
    [..|by apply elem_of_nil in Hd];
    repeat first
      [ apply contains_replace1_removed; reflexivity
      | apply contains_replace1_kept; [reflexivity|]
      | eapply contains_replace2_kept; [reflexivity|reflexivity|] ].
Qed.

End sanitize.

(** X17: whatever file name is given, [_sanitize_filename] returns a name
    with no slash, backslash, colon, asterisk, question mark, double
    quote, angle bracket or bar, also when the name is cut to its
    length limit; so the path [get_temp_file_path] builds lies directly
    in the temporary directory. *)
Theorem sanitize_filename_no_separator filename :
  Forall (λ d, Py.contains d (sanitize_filename filename) = false)
    ["/"; "\"; ":"; "*"; "?"; quote_char; "<"; ">"; "|"]%char
  ∧ ∀ timestamp user_id,
      ∃ temp_filename,
        get_temp_file_path timestamp user_id filename
        = "/tmp/" +:+ temp_filename
        ∧ Py.contains "/" temp_filename = false.
Proof.
  assert (∀ d, d ∈ ["/"; "\"; ":"; "*"; "?"; quote_char; "<"; ">"; "|"]%char →
               Py.contains d (sanitize_filename filename) = false) as Hfree.
  { intros d Hd. unfold sanitize_filename.
    pose proof (replaced_free d filename Hd) as Hsafe.
    set (safe_name := foldl _ filename dangerous_chars) in *.
    case_decide; [|done].
    destruct (contains_splitext d safe_name Hsafe) as [Hname Hext].
    destruct (PyPath.splitext safe_name) as [name ext].
    cbn [fst snd] in Hname, Hext.
    by rewrite contains_app, (contains_take d 95 name Hname), Hext. }
  split; [by apply Forall_forall|].
  intros timestamp user_id. eexists. split; [reflexivity|].
  rewrite !contains_app, !contains_pretty_Z by done.
  rewrite Hfree by apply list_elem_of_here. done.
Qed.

(** ** Removing a user's temporary files *)

Section cleanup.

Lemma sanitize_filename_free d filename :
  d ∈ ["/"; "\"; ":"; "*"; "?"; quote_char; "<"; ">"; "|"]%char →
  Py.contains d (sanitize_filename filename) = false.
Proof.
  intros Hd. unfold sanitize_filename.
  pose proof (replaced_free d filename Hd) as Hsafe.
  set (safe_name := foldl _ filename dangerous_chars) in *.
  case_decide; [|done].
  destruct (contains_splitext d safe_name Hsafe) as [Hname Hext].
  destruct (PyPath.splitext safe_name) as [name ext].
  cbn [fst snd] in Hname, Hext.
  by rewrite contains_app, (contains_take d 95 name Hname), Hext.
Qed.

Lemma startswith_app prefix s : startswith prefix (prefix +:+ s) = true.
Proof.
  induction prefix as [|c prefix IH]; [done|]. rewrite app_cons. cbn.
  by rewrite bool_decide_eq_true_2.
Qed.

Lemma startswith_app_cancel prefix s1 s2 :
  startswith (prefix +:+ s1) (prefix +:+ s2) = startswith s1 s2.
Proof.
  induction prefix as [|c prefix IH]; [done|]. rewrite !app_cons. cbn.
  by rewrite bool_decide_eq_true_2.
Qed.

(** Two numerals, each followed by an underscore: one is a prefix of the
    other only when they are the same numeral. *)
Lemma startswith_numeral s1 : ∀ s2 rest,
  Py.contains "_" s1 = false → Py.contains "_" s2 = false →
  startswith (s1 +:+ "_") (s2 +:+ "_" +:+ rest) = true → s1 = s2.
Proof.
  induction s1 as [|c1 s1 IH]; intros [|c2 s2] rest H1 H2 Hstart.
  - done.
  - rewrite app_empty, app_cons in Hstart. cbn in Hstart, H2.
    apply andb_true_iff in Hstart as [<-%bool_decide_eq_true _]. done.
  - rewrite app_cons, app_empty in Hstart. cbn in Hstart, H1.
    apply andb_true_iff in Hstart as [->%bool_decide_eq_true _]. done.
  - rewrite !app_cons in Hstart. cbn in Hstart, H1, H2.
    apply andb_true_iff in Hstart as [->%bool_decide_eq_true Hstart].
    destruct (decide (c2 = "_"%char)); [done|].
    f_equal. by eapply IH.
Qed.

Lemma temp_file_name timestamp user_id filename :
  let temp_filename :=
    "user_" +:+ pretty user_id +:+ "_" +:+ pretty timestamp +:+ "_"
      +:+ sanitize_filename filename in
  get_temp_file_path timestamp user_id filename = "/tmp/" +:+ temp_filename
  ∧ temp_name ("/tmp/" +:+ temp_filename) = Some temp_filename.
Proof.
  intros temp_filename. split; [reflexivity|].
  assert (Py.contains "/" temp_filename = false) as Hfree.
  { unfold temp_filename.
    rewrite !contains_app, !contains_pretty_Z by done.
    rewrite sanitize_filename_free by apply list_elem_of_here. done. }
  unfold temp_name. rewrite startswith_app.
  change (PyPath.drop 5 ("/tmp/" +:+ temp_filename)) with temp_filename.
  by rewrite Hfree.
Qed.

End cleanup.

(** X18: [cleanup_user_files] removes every path that
    [get_temp_file_path] builds for the same user, whatever the time and
    the file name, and keeps the files that it builds for any other
    user. *)
Theorem cleanup_user_files_own_files_only
    fs user_id timestamp filename :
  cleanup_user_files fs user_id
    !! get_temp_file_path timestamp user_id filename = None
  ∧ ∀ other_id,
      other_id ≠ user_id →
      cleanup_user_files fs user_id
        !! get_temp_file_path timestamp other_id filename
      = fs !! get_temp_file_path timestamp other_id filename.
Proof.
  split.
  - destruct (temp_file_name timestamp user_id filename) as [-> Hname].
    apply map_lookup_filter_None. right. intros doc _. cbn.
    rewrite Hname. by rewrite !startswith_app_cancel, startswith_app.
  - intros other_id Hother.
    destruct (temp_file_name timestamp other_id filename) as [-> Hname].
    destruct (fs !! _) as [doc|] eqn:Hdoc.
    + apply map_lookup_filter_Some. split; [done|]. cbn. rewrite Hname.
      rewrite startswith_app_cancel.
      destruct (startswith _ _) eqn:Hstart; [|done].
      apply startswith_numeral in Hstart;
        [|by apply contains_pretty_Z..].
      by apply (inj pretty) in Hstart.
    + apply map_lookup_filter_None. by left.
Qed.

Lemma cleanup_user_files_own_files_only_witness :
  cleanup_user_files reorder_disk 1
    !! get_temp_file_path 1700000000 12 "in.pdf"
  = reorder_disk !! get_temp_file_path 1700000000 12 "in.pdf".
Proof.
  apply (cleanup_user_files_own_files_only reorder_disk 1 1700000000 "in.pdf").
  lia.
Defined.

Lemma validate_page_input_iff_selected_witness :
  (validate_page_input "5-2" 10).2
  ∈ [empty_input_text; invalid_format_text 10].
Proof.
  apply (proj2 (proj2 (validate_page_input_iff_selected "5-2" 10))).
  reflexivity.
Defined.

Lemma rotate_input_pages_selection_witness :
  [1; 2; 3] = parse_page_numbers "1-3" 5
  ∧ ([1; 2; 3] = [] → Py.lower "1-3" = "all" ∧ 5 ≤ 0).
Proof.
  apply (proj1 (rotate_input_pages_selection "1-3" 5)). reflexivity.
Defined.
